(** * Enchanced Speech History: a shallow embedding of the add-on's core

    Source: [enchancedSpeechHistory/globalPlugins/enchancedSpeechHistory.py].

    The development follows the layout of the Python module:
    - [Py]: the few builtins of the host language the module relies on
      ([str.strip], [str.lstrip], [str.lower], [in], [str.join],
      [re.findall(r"\d+", _)], [int], tuple comparison), and [Deque], the
      [collections.deque] with a [maxlen];
    - the version comparison of the updater ([_versionToTuple],
      [_isVersionNewer]);
    - the [GlobalPlugin] object: history deque, review cursor, recording;
    - the [HistoryDialog] object: snapshot, search filter, remembered focus.

    A Python [str] is modelled as a Rocq [string], one [ascii] per character:
    the texts are those of the code points below 256, and on them the
    builtins of [Py] agree with Python's character by character. A Python
    [int] is modelled as [Z] (or [N] where the code only builds naturals). *)

From Stdlib Require Import ZArith NArith Ascii String List Bool Lia.
From stdpp Require Import base option list strings gmap sorting.

Local Open Scope Z_scope.

(** ** Builtins of the host language *)

Module Py.

(** [str.isspace] on one character: TAB, LF, VT, FF, CR (9 to 13), FS, GS,
    RS, US and SPACE (28 to 32), NEL (133) and the no-break space (160). *)
Definition isspace (c : ascii) : bool :=
  let n := N_of_ascii c in
  ((9 <=? n) && (n <=? 13) || (28 <=? n) && (n <=? 32)
   || (n =? 133) || (n =? 160))%N.

(** [c in "0123456789"], the characters matched by [\d]. *)
Definition isdigit (c : ascii) : bool :=
  let n := N_of_ascii c in ((48 <=? n) && (n <=? 57))%N.

(** [c in chars] for a character [c]. *)
Fixpoint char_in (c : ascii) (chars : string) : bool :=
  match chars with
  | EmptyString => false
  | String d chars' => if Ascii.eqb c d then true else char_in c chars'
  end.

(** Removal of the leading characters that satisfy [p]. *)
Fixpoint lstrip_by (p : ascii -> bool) (s : string) : string :=
  match s with
  | EmptyString => EmptyString
  | String c s' => if p c then lstrip_by p s' else s
  end.

(** Removal of the trailing characters that satisfy [p]. *)
Fixpoint rstrip_by (p : ascii -> bool) (s : string) : string :=
  match s with
  | EmptyString => EmptyString
  | String c s' =>
      match rstrip_by p s' with
      | EmptyString => if p c then EmptyString else String c EmptyString
      | r => String c r
      end
  end.

(** [s.lstrip()], [s.rstrip()], [s.strip()] and [s.lstrip(chars)]. *)
Definition lstrip (s : string) : string := lstrip_by isspace s.
Definition rstrip (s : string) : string := rstrip_by isspace s.
Definition strip (s : string) : string := lstrip (rstrip s).
Definition lstrip_chars (chars s : string) : string :=
  lstrip_by (fun c => char_in c chars) s.

(** Truth value of a [str]: non-empty. *)
Definition truthy (s : string) : bool :=
  match s with EmptyString => false | String _ _ => true end.

(** [s.lower()]: the capital letters are A to Z (65 to 90) and the
    accented capitals 192 to 222 without the multiplication sign (215);
    the small letter of each is 32 further. No other character below 256
    changes, and none changes the length of the text. *)
Definition lower_char (c : ascii) : ascii :=
  let n := N_of_ascii c in
  if ((65 <=? n) && (n <=? 90)
      || (192 <=? n) && (n <=? 222) && negb (n =? 215))%N
  then ascii_of_N (n + 32) else c.

Fixpoint lower (s : string) : string :=
  match s with
  | EmptyString => EmptyString
  | String c s' => String (lower_char c) (lower s')
  end.

(** [s.startswith(p)]. *)
Fixpoint startswith (p s : string) : bool :=
  match p, s with
  | EmptyString, _ => true
  | String _ _, EmptyString => false
  | String a p', String b s' => if Ascii.eqb a b then startswith p' s' else false
  end.

(** [sub in s] for two strings: [sub] occurs in [s] as a substring. *)
Fixpoint contains (sub s : string) : bool :=
  if startswith sub s then true
  else match s with
       | EmptyString => false
       | String _ s' => contains sub s'
       end.

(** [sep.join(parts)]. *)
Definition join (sep : string) (parts : list string) : string :=
  String.concat sep parts.

(** [re.findall(r"\d+", s)]: the maximal runs of digits of [s], from left
    to right. [run] is the run being read. *)
Definition emit (run : string) : list string :=
  match run with EmptyString => [] | String _ _ => [run] end.

Fixpoint findall_digits_from (run s : string) : list string :=
  match s with
  | EmptyString => emit run
  | String c s' =>
      if isdigit c then findall_digits_from (run +:+ String c EmptyString) s'
      else emit run ++ findall_digits_from EmptyString s'
  end.

Definition findall_digits (s : string) : list string :=
  findall_digits_from EmptyString s.

(** [int(part)] for a run of decimal digits. *)
Definition int_from (acc : N) (part : string) : N :=
  fold_left (fun a c => (10 * a + (N_of_ascii c - 48))%N)
            (list_ascii_of_string part) acc.

Definition int (part : string) : N := int_from 0%N part.

(** [a > b] on tuples of integers: the first differing field decides, and
    a proper extension is greater than its prefix. *)
Fixpoint tuple_gt (a b : list N) : bool :=
  match a, b with
  | [], _ => false
  | _ :: _, [] => true
  | x :: a', y :: b' => if (x =? y)%N then tuple_gt a' b' else (y <? x)%N
  end.

(** [t * k] for a tuple [t] and an integer [k]: empty when [k <= 0]. *)
Fixpoint tuple_mul {A} (t : list A) (k : nat) : list A :=
  match k with
  | O => []
  | S k' => t ++ tuple_mul t k'
  end.

End Py.

(** ** Version comparison of the updater *)

Definition _versionToTuple (version : string) : list N :=
  let versionString := Py.lstrip_chars "vV" (Py.strip version) in
  let parts := map Py.int (Py.findall_digits versionString) in
  match parts with
  | [] => [0%N]
  | _ => parts
  end.

Definition _isVersionNewer (currentVersion latestVersion : string) : bool :=
  let currentParts := _versionToTuple currentVersion in
  let latestParts := _versionToTuple latestVersion in
  let maxLen := Nat.max (length currentParts) (length latestParts) in
  let currentParts :=
    currentParts ++ Py.tuple_mul [0%N] (maxLen - length currentParts) in
  let latestParts :=
    latestParts ++ Py.tuple_mul [0%N] (maxLen - length latestParts) in
  Py.tuple_gt latestParts currentParts.

(** ** Speech sequences *)

(** An item of a speech sequence is a [str] fragment or a command object;
    [eventHandler.FocusLossCancellableSpeechCommand] is the one command class
    the module tests for. *)
Inductive SpeechItem : Type :=
| Str (text : string)
| FocusLossCancellableSpeechCommand
| OtherCommand (tag : nat).

Definition SpeechSequence : Type := list SpeechItem.

(** [isinstance(x, FocusLossCancellableSpeechCommand)]. *)
Definition is_FocusLossCancellable (x : SpeechItem) : bool :=
  match x with FocusLossCancellableSpeechCommand => true | _ => false end.

(** [[x for x in sequence if isinstance(x, str)]]. *)
Fixpoint str_items (sequence : SpeechSequence) : list string :=
  match sequence with
  | [] => []
  | Str text :: rest => text :: str_items rest
  | _ :: rest => str_items rest
  end.

(** ** [collections.deque] with a [maxlen] *)

Module Deque.

Record deque (A : Type) : Type := mk { items : list A; maxlen : nat }.
Arguments mk {A} items maxlen.
Arguments items {A} d.
Arguments maxlen {A} d.

(** [deque(maxlen=n)]. *)
Definition new {A} (n : nat) : deque A := mk [] n.

(** [len(d)] and the truth value of [d]. *)
Definition len {A} (d : deque A) : Z := Z.of_nat (length (items d)).

Definition nonempty {A} (d : deque A) : bool :=
  match items d with [] => false | _ :: _ => true end.

(** [d.appendleft(x)]: the item is put at the left end, then the deque is
    trimmed from the right end when it has become longer than [maxlen]. *)
Definition appendleft {A} (x : A) (d : deque A) : deque A :=
  let l := x :: items d in
  mk (if (maxlen d <? length l)%nat then removelast l else l) (maxlen d).

(** [d.clear()]. *)
Definition clear {A} (d : deque A) : deque A := mk [] (maxlen d).

(** [d[i]]: a negative index counts from the right end; [None] stands for
    the [IndexError] of an index out of range. *)
Definition getitem {A} (d : deque A) (i : Z) : option A :=
  let n := len d in
  let j := if i <? 0 then i + n else i in
  if (j <? 0) || (n <=? j) then None else items d !! Z.to_nat j.

End Deque.

(** ** The plugin object *)

(** The keys of the configuration section the modelled methods read. The
    configuration specification bounds [maxHistoryLength] from below by
    [MIN_HISTORY_ENTRIES]. *)
Record Config : Type := {
  maxHistoryLength : nat;
  beepBoundaryPanning : bool
}.

Definition MIN_HISTORY_ENTRIES : nat := 1.
Definition BOUNDARY_BEEP_FREQUENCY : Z := 200.
Definition BOUNDARY_BEEP_DURATION : Z := 100.

(** The attributes of [GlobalPlugin] that the history, the review cursor and
    the recording use. *)
Record GlobalPlugin : Type := {
  _history : Deque.deque SpeechSequence;
  _recorded : list string;
  _recording : bool;
  history_pos : Z
}.

Definition set_history (f : Deque.deque SpeechSequence -> Deque.deque SpeechSequence)
    (self : GlobalPlugin) : GlobalPlugin :=
  {| _history := f (_history self); _recorded := _recorded self;
     _recording := _recording self; history_pos := history_pos self |}.

Definition set_recorded (f : list string -> list string)
    (self : GlobalPlugin) : GlobalPlugin :=
  {| _history := _history self; _recorded := f (_recorded self);
     _recording := _recording self; history_pos := history_pos self |}.

Definition set_recording (b : bool) (self : GlobalPlugin) : GlobalPlugin :=
  {| _history := _history self; _recorded := _recorded self;
     _recording := b; history_pos := history_pos self |}.

Definition set_history_pos (f : Z -> Z) (self : GlobalPlugin) : GlobalPlugin :=
  {| _history := _history self; _recorded := _recorded self;
     _recording := _recording self; history_pos := f (history_pos self) |}.

(** What a method does to the host, in call order. *)
Inductive Event : Type :=
| Speak (sequence : SpeechSequence)
    (* self.oldSpeak(sequence): the host's original speak function *)
| Beep (hz ms : Z) (pan : option (Z * Z))
    (* tones.beep(hz, ms) or tones.beep(hz, ms, left, right) *)
| CopyToClip (text : string)
    (* api.copyToClip(text) *)
| QueueFunction (sequence : SpeechSequence).
    (* queueFunction(eventQueue, self.append_to_history, sequence) *)

(** A method is a function of the object: it may raise (here only the
    [IndexError] of an index out of range, [None]), and otherwise gives a
    result, the updated object and the calls made to the host. *)
Definition M (A : Type) : Type :=
  GlobalPlugin -> option (A * GlobalPlugin * list Event).

#[global] Instance M_ret : MRet M := fun A a self => Some (a, self, []).

#[global] Instance M_bind : MBind M := fun A B k m self =>
  match m self with
  | None => None
  | Some (a, self1, out1) =>
      match k a self1 with
      | None => None
      | Some (b, self2, out2) => Some (b, self2, out1 ++ out2)
      end
  end.

Definition gets {A} (f : GlobalPlugin -> A) : M A :=
  fun self => Some (f self, self, []).

Definition modify (f : GlobalPlugin -> GlobalPlugin) : M unit :=
  fun self => Some (tt, f self, []).

Definition tell (e : Event) : M unit := fun self => Some (tt, self, [e]).

Definition lift {A} (o : option A) : M A :=
  fun self => match o with None => None | Some a => Some (a, self, []) end.

(** The line feed, [chr(10)]. *)
Definition LF : string := String "010"%char EmptyString.

(** The values of the [postCopyAction] setting. *)
Definition POST_COPY_NOTHING : string := "nothing".
Definition POST_COPY_BEEP : string := "beep".
Definition POST_COPY_SPEAK : string := "speak".
Definition POST_COPY_BOTH : string := "speakAndBeep".

(** The keys of the configuration section that copying reads. *)
Record CopyConfig : Type := {
  postCopyAction : string;
  beepFrequency : Z;
  beepDuration : Z;
  trimWhitespaceFromStart : bool;
  trimWhitespaceFromEnd : bool
}.

(** [x in (a, b)] for strings. *)
Definition in_pair (x a b : string) : bool := String.eqb x a || String.eqb x b.

Section Plugin.

(** [speechViewer.SPEECH_ITEM_SEPARATOR], a constant of the host, and the
    configuration section of the add-on. *)
Variable SPEECH_ITEM_SEPARATOR : string.
Variable conf : Config.
Variable copyConf : CopyConfig.

Definition __init__ : GlobalPlugin :=
  {| _history := Deque.new (maxHistoryLength conf);
     _recorded := [];
     _recording := false;
     history_pos := 0 |}.

Definition oldSpeak (sequence : SpeechSequence) : M unit :=
  tell (Speak sequence).

Definition _speakMessage (message : string) : M unit :=
  oldSpeak [Str message].

Definition _beepHistoryBoundary (atBeginning : bool) : M unit :=
  if beepBoundaryPanning conf then
    if atBeginning then
      tell (Beep BOUNDARY_BEEP_FREQUENCY BOUNDARY_BEEP_DURATION (Some (0, 100)))
    else
      tell (Beep BOUNDARY_BEEP_FREQUENCY BOUNDARY_BEEP_DURATION (Some (100, 0)))
  else
    tell (Beep BOUNDARY_BEEP_FREQUENCY BOUNDARY_BEEP_DURATION None).

Definition getSequenceText (sequence : SpeechSequence) : string :=
  Py.join SPEECH_ITEM_SEPARATOR (str_items sequence).

Definition _performPostCopyFeedback : M unit :=
  let postCopyAction := postCopyAction copyConf in
  (if in_pair postCopyAction POST_COPY_BEEP POST_COPY_BOTH
   then tell (Beep (beepFrequency copyConf) (beepDuration copyConf) None)
   else mret tt);;
  if in_pair postCopyAction POST_COPY_SPEAK POST_COPY_BOTH
  then _speakMessage "Copied"
  else mret tt.

(** [script_copyLast]; [copied] is what [api.copyToClip(text)] answers. *)
Definition script_copyLast (copied : bool) : M unit :=
  h ← gets _history;
  if negb (Deque.nonempty h) then _speakMessage "No history items."
  else
    pos ← gets history_pos;
    entry ← lift (Deque.getitem h pos);
    let text := getSequenceText entry in
    let text := if trimWhitespaceFromStart copyConf then Py.lstrip text else text in
    let text := if trimWhitespaceFromEnd copyConf then Py.rstrip text else text in
    tell (CopyToClip text);;
    if copied then _performPostCopyFeedback else mret tt.

Definition script_prevString : M unit :=
  h ← gets _history;
  if negb (Deque.nonempty h) then _speakMessage "No history items."
  else
    modify (set_history_pos (fun pos => pos + 1));;
    pos ← gets history_pos;
    (if pos >? Deque.len h - 1 then
       _beepHistoryBoundary false;;
       modify (set_history_pos (fun pos => pos - 1))
     else mret tt);;
    pos ← gets history_pos;
    entry ← lift (Deque.getitem h pos);
    oldSpeak entry.

Definition script_nextString : M unit :=
  h ← gets _history;
  if negb (Deque.nonempty h) then _speakMessage "No history items."
  else
    modify (set_history_pos (fun pos => pos - 1));;
    pos ← gets history_pos;
    (if pos <? 0 then
       _beepHistoryBoundary true;;
       modify (set_history_pos (fun pos => pos + 1))
     else mret tt);;
    pos ← gets history_pos;
    entry ← lift (Deque.getitem h pos);
    oldSpeak entry.

Definition script_startRecording : M unit :=
  recording ← gets _recording;
  if (recording : bool) then _speakMessage "Already recording speech"
  else
    _speakMessage "Started recording speech";;
    modify (set_recording true).

Definition script_stopRecording : M unit :=
  recording ← gets _recording;
  if negb (recording : bool) then _speakMessage "Not currently recording speech"
  else
    modify (set_recording false);;
    recorded ← gets _recorded;
    let recordedText := Py.join LF recorded in
    modify (set_recorded (fun _ => []));;
    if Py.truthy recordedText then
      tell (CopyToClip recordedText);;
      _speakMessage "Recorded speech copied to clipboard"
    else
      _speakMessage "No recorded speech to copy".

Definition append_to_history (seq : SpeechSequence) : M unit :=
  let seq := List.filter (fun command => negb (is_FocusLossCancellable command)) seq in
  modify (set_history (Deque.appendleft seq));;
  modify (set_history_pos (fun _ => 0));;
  recording ← gets _recording;
  if (recording : bool) then
    modify (set_recorded (fun recorded => recorded ++ [getSequenceText seq]))
  else mret tt.

Definition mySpeak (sequence : SpeechSequence) : M unit :=
  oldSpeak sequence;;
  let text := getSequenceText sequence in
  if Py.truthy (Py.strip text) then tell (QueueFunction sequence)
  else mret tt.

Definition clearHistory : M unit :=
  modify (set_history Deque.clear);;
  modify (set_history_pos (fun _ => 0));;
  modify (set_recorded (fun _ => [])).

(** *** The plugin inside the host

    The host calls [mySpeak] for every speech sequence, runs the functions
    queued on its event queue one at a time, runs a script when its gesture
    is pressed, and the dialog's clear button calls [clearHistory]. All of
    this happens on one thread, one call after the other. These are the
    calls that write the history, the cursor or the recording, or read the
    entry under the cursor; [script_showHistory] and the dialog only iterate
    over the history. *)

Record World : Type := {
  self : GlobalPlugin;
  eventQueue : list SpeechSequence  (* pending append_to_history calls *)
}.

(** The sequences a method handed to [queueFunction]. *)
Fixpoint queued (out : list Event) : list SpeechSequence :=
  match out with
  | [] => []
  | QueueFunction sequence :: out' => sequence :: queued out'
  | _ :: out' => queued out'
  end.

Inductive Action : Type :=
| HostSpeaks (sequence : SpeechSequence)
| HostRunsQueued
| GesturePrevString
| GestureNextString
| GestureStartRecording
| GestureStopRecording
| GestureCopyLast (copied : bool)  (* the answer of api.copyToClip *)
| DialogClearsHistory.

Definition method_of (a : Action) (w : World) : M unit :=
  match a with
  | HostSpeaks sequence => mySpeak sequence
  | HostRunsQueued =>
      match eventQueue w with
      | [] => mret tt
      | sequence :: _ => append_to_history sequence
      end
  | GesturePrevString => script_prevString
  | GestureNextString => script_nextString
  | GestureStartRecording => script_startRecording
  | GestureStopRecording => script_stopRecording
  | GestureCopyLast copied => script_copyLast copied
  | DialogClearsHistory => clearHistory
  end.

Definition perform (a : Action) (w : World) : option (World * list Event) :=
  match method_of a w (self w) with
  | None => None
  | Some (_, self', out) =>
      let rest := match a with HostRunsQueued => tail (eventQueue w) | _ => eventQueue w end in
      Some ({| self := self'; eventQueue := rest ++ queued out |}, out)
  end.

(** The states the host can bring the plugin into. *)
Inductive reachable : World -> Prop :=
| reachable_init :
    reachable {| self := __init__; eventQueue := [] |}
| reachable_step a w w' out :
    reachable w -> perform a w = Some (w', out) -> reachable w'.

(** Pushing the sequences of a list, one [append_to_history] call each. *)
Fixpoint push_all (seqs : list SpeechSequence) : M unit :=
  match seqs with
  | [] => mret tt
  | seq :: seqs' => append_to_history seq;; push_all seqs'
  end.

End Plugin.

(** ** The history dialog *)

Module Dialog.

(** The list control of the dialog, as far as the dialog uses it: its rows
    and the focused row; [GetFocusedItem] is [-1] when no row has the
    focus. *)
Record ListCtrl : Type := { rows : list string; focusedItem : Z }.

Definition DeleteAllItems (_ : ListCtrl) : ListCtrl :=
  {| rows := []; focusedItem := -1 |}.

Definition Append (row : string) (c : ListCtrl) : ListCtrl :=
  {| rows := rows c ++ [row]; focusedItem := focusedItem c |}.

(** [Select(index, on=1)] followed by
    [SetItemState(index, LIST_STATE_FOCUSED, LIST_STATE_FOCUSED)]. *)
Definition SelectAndFocus (index : Z) (c : ListCtrl) : ListCtrl :=
  {| rows := rows c; focusedItem := index |}.

Definition GetFocusedItem (c : ListCtrl) : Z := focusedItem c.

(** The attributes of [HistoryDialog] that the search and the focus use. *)
Record HistoryDialog : Type := {
  history : list string;
  searchHistory : list string;
  searches : gmap string Z;
  curSearch : string;
  historyList : ListCtrl
}.

(** [item[0:100]]. *)
Definition first100 (item : string) : string := String.substring 0 100 item.

Definition doSearch (text : string) (d : HistoryDialog) : HistoryDialog :=
  let searchHistory :=
    if negb (Py.truthy text) then history d
    else List.filter (fun item => Py.contains text (Py.lower item)) (history d) in
  let historyList := DeleteAllItems (historyList d) in
  let historyList :=
    fold_left (fun c item => Append (first100 item) c) searchHistory historyList in
  let historyList :=
    match searchHistory with
    | [] => historyList
    | _ :: _ =>
        let index := default 0 (searches d !! text) in
        let index :=
          if index >=? Z.of_nat (length searchHistory)
          then Z.of_nat (length searchHistory) - 1 else index in
        let index := Z.max index 0 in
        SelectAndFocus index historyList
    end in
  {| history := history d; searchHistory := searchHistory;
     searches := searches d; curSearch := curSearch d;
     historyList := historyList |}.

(** [onSearch]; [value] is [self.searchTextField.GetValue()]. *)
Definition onSearch (value : string) (d : HistoryDialog) : HistoryDialog :=
  let text := Py.lower value in
  if String.eqb text (curSearch d) then d
  else
    let index := GetFocusedItem (historyList d) in
    let index := if index <? 0 then 0 else index in
    doSearch text
      {| history := history d; searchHistory := searchHistory d;
         searches := <[curSearch d := index]> (searches d);
         curSearch := text;
         historyList := historyList d |}.

(** The user moves the focus of the list control to one of its rows. *)
Definition userFocuses (index : Z) (d : HistoryDialog) : HistoryDialog :=
  if (0 <=? index) && (index <? Z.of_nat (length (rows (historyList d))))
  then {| history := history d; searchHistory := searchHistory d;
          searches := searches d; curSearch := curSearch d;
          historyList := SelectAndFocus index (historyList d) |}
  else d.

Section WithHost.

Variable SPEECH_ITEM_SEPARATOR : string.

(** [updateHistory]; [addon] is [self.addon]. *)
Definition updateHistory (addon : GlobalPlugin) (d : HistoryDialog) : HistoryDialog :=
  let history :=
    map (getSequenceText SPEECH_ITEM_SEPARATOR) (Deque.items (_history addon)) in
  doSearch (curSearch d)
    {| history := history; searchHistory := searchHistory d;
       searches := searches d; curSearch := curSearch d;
       historyList := historyList d |}.

(** [__init__]: the attributes it sets and its call of [updateHistory]; the
    widgets it builds are left out. *)
Definition __init__ (addon : GlobalPlugin) : HistoryDialog :=
  updateHistory addon
    {| history := []; searchHistory := [];
       searches := {[ EmptyString := 0 ]}; curSearch := EmptyString;
       historyList := {| rows := []; focusedItem := -1 |} |}.

End WithHost.

End Dialog.

(** [l[i]] for a list or a tuple: a negative index counts from the end;
    [None] stands for the [IndexError] of an index out of range. *)
Definition list_getitem {A} (l : list A) (i : Z) : option A :=
  let n := Z.of_nat (length l) in
  let j := if i <? 0 then i + n else i in
  if (j <? 0) || (n <=? j) then None else l !! Z.to_nat j.

(** [refreshUI] of the settings panel: whether the three beep controls are
    enabled; [selection] is [self.postCopyActionCombo.GetSelection()]. *)
Definition postCopyActionValues : list string :=
  [POST_COPY_NOTHING; POST_COPY_BEEP; POST_COPY_SPEAK; POST_COPY_BOTH].

Definition refreshUI (selection : Z) : option bool :=
  postCopyAction ← list_getitem postCopyActionValues selection;
  Some (in_pair postCopyAction POST_COPY_BEEP POST_COPY_BOTH).

(** ** Selection and copying in the dialog *)

Module Selection.

(** [sorted(s)] for a set of integers. *)
Definition sorted (s : gset Z) : list Z := merge_sort Z.le (elements s).

(** [range(0, n)]. *)
Definition range0 (n : nat) : list Z := Z.of_nat <$> seq 0 n.

(** The attributes of [HistoryDialog] that selecting and copying use; the
    search attributes are those of [Dialog.HistoryDialog]. *)
Record SelectingDialog : Type := {
  dialog : Dialog.HistoryDialog;
  selection : gset Z;
  currentTextElement : string
}.

(** [[self.searchHistory[index] for index in items if index < len(self.searchHistory)]]. *)
Fixpoint picked (searchHistory : list string) (items : list Z) : option (list string) :=
  match items with
  | [] => Some []
  | index :: items' =>
      if index <? Z.of_nat (length searchHistory) then
        item ← list_getitem searchHistory index;
        rest ← picked searchHistory items';
        Some (item :: rest)
      else picked searchHistory items'
  end.

Definition itemsToString (d : SelectingDialog) (items : list Z) : option string :=
  Py.join LF <$> picked (Dialog.searchHistory (dialog d)) items.

Definition updateSelection (d : SelectingDialog) : option SelectingDialog :=
  text ← itemsToString d (sorted (selection d));
  Some {| dialog := dialog d; selection := selection d; currentTextElement := text |}.

(** [onSelect] and [onDeselect]; [index] is [evt.GetIndex()]. *)
Definition onSelect (index : Z) (d : SelectingDialog) : option SelectingDialog :=
  updateSelection
    {| dialog := dialog d; selection := {[ index ]} ∪ selection d;
       currentTextElement := currentTextElement d |}.

Definition onDeselect (index : Z) (d : SelectingDialog) : option SelectingDialog :=
  updateSelection
    {| dialog := dialog d; selection := selection d ∖ {[ index ]};
       currentTextElement := currentTextElement d |}.

Section WithAddon.

Variable copyConf : CopyConfig.

(** [onCopy] and [onCopyAll]: the calls made to the host; [copied] is what
    [api.copyToClip(text)] answers, and [self.addon] is left as it is. *)
Definition copy_text (text : string) (copied : bool) (addon : GlobalPlugin)
    : option (list Event) :=
  if Py.truthy text then
    if copied then
      '(_, _, out) ← _performPostCopyFeedback copyConf addon;
      Some (CopyToClip text :: out)
    else Some [CopyToClip text]
  else Some [].

Definition onCopy (copied : bool) (addon : GlobalPlugin) (d : SelectingDialog)
    : option (list Event) :=
  copy_text (currentTextElement d) copied addon.

Definition onCopyAll (copied : bool) (addon : GlobalPlugin) (d : SelectingDialog)
    : option (list Event) :=
  text ← itemsToString d (range0 (length (Dialog.searchHistory (dialog d))));
  copy_text text copied addon.

End WithAddon.

End Selection.

(** ** The updater *)

Module Update.

(** [s.endswith(suffix)]. *)
Fixpoint endswith (suffix s : string) : bool :=
  if String.eqb s suffix then true
  else match s with
       | EmptyString => false
       | String _ s' => endswith suffix s'
       end.

(** The decoded response of the releases API, as far as
    [_fetchLatestReleaseInfo] reads it; a field that is present holds a
    string, [None] is a missing field or [null]. *)
Record Asset : Type := {
  asset_name : option string;
  browser_download_url : option string
}.

Record ReleaseData : Type := {
  tag_name : option string;
  release_name : option string;
  assets : list Asset
}.

(** Truth value of a string that may be [None], and [a or b]. *)
Definition truthy_opt (o : option string) : bool :=
  match o with Some s => Py.truthy s | None => false end.

Definition or_else (a b : option string) : option string :=
  if truthy_opt a then a else b.

(** The loop over the assets: the URL of the first asset whose name ends in
    [.nvda-addon], whatever the case, and that has a URL. *)
Fixpoint first_addon_url (assets : list Asset) : option string :=
  match assets with
  | [] => None
  | asset :: assets' =>
      let assetName := default EmptyString (asset_name asset) in
      let assetUrl := browser_download_url asset in
      if endswith ".nvda-addon" (Py.lower assetName) && truthy_opt assetUrl
      then assetUrl
      else first_addon_url assets'
  end.

(** What [_fetchLatestReleaseInfo] returns for the decoded response [data];
    [None] stands for its [ValueError]. *)
Definition latestReleaseInfo (data : ReleaseData) : option (string * option string) :=
  let latestVersion := or_else (tag_name data) (release_name data) in
  if negb (truthy_opt latestVersion) then None
  else Some (default EmptyString latestVersion, first_addon_url (assets data)).

(** [re.sub(r"[^0-9A-Za-z._-]", "-", s)]. *)
Definition is_safe_char (c : ascii) : bool :=
  let n := N_of_ascii c in
  ((48 <=? n) && (n <=? 57) || (65 <=? n) && (n <=? 90) || (97 <=? n) && (n <=? 122)
   || (n =? 46) || (n =? 95) || (n =? 45))%N.

Fixpoint sub_unsafe (s : string) : string :=
  match s with
  | EmptyString => EmptyString
  | String c s' => String (if is_safe_char c then c else "-"%char) (sub_unsafe s')
  end.

(** The name of the file the downloaded package is written to. *)
Definition fileName (latestVersion : string) : string :=
  "enchancedSpeechHistory-" +:+ sub_unsafe latestVersion +:+ ".nvda-addon".

(** The two flags of [GlobalPlugin] that guard the update check and the
    download. *)
Record Updater : Type := {
  _updateCheckInProgress : bool;
  _updateDownloadInProgress : bool
}.

(** What the updater does to the host. *)
Inductive UpdateEvent : Type :=
| Message (text : string)
    (* ui.message(text) *)
| StartCheckThread (manual : bool)
    (* threading.Thread(target=self._checkForUpdatesWorker, args=(manual,)).start() *)
| StartDownloadThread (downloadUrl latestVersion : string)
    (* threading.Thread(target=self._downloadAndInstallUpdateWorker, ...).start() *)
| MessageBox (message title : string)
    (* gui.messageBox(message, title, wx.YES_NO | wx.ICON_INFORMATION) *)
| HandleRemoteAddonInstall (downloadedPath : string).
    (* addonGui.handleRemoteAddonInstall(downloadedPath) *)

Definition checkForUpdates (manual : bool) (self : Updater)
    : Updater * list UpdateEvent :=
  if _updateCheckInProgress self then
    (self,
     if manual
     then [Message "Enchanced Speech History update check is already in progress."]
     else [])
  else
    ({| _updateCheckInProgress := true;
        _updateDownloadInProgress := _updateDownloadInProgress self |},
     [StartCheckThread manual]).

Definition downloadAndInstallUpdate (downloadUrl : option string)
    (latestVersion : string) (self : Updater) : Updater * list UpdateEvent :=
  if _updateDownloadInProgress self then
    (self, [Message "Enchanced Speech History update download is already in progress."])
  else if negb (truthy_opt downloadUrl) then
    (self, [Message "Update found, but no .nvda-addon package is available in this release."])
  else
    ({| _updateCheckInProgress := _updateCheckInProgress self;
        _updateDownloadInProgress := true |},
     [Message "Downloading Enchanced Speech History update.";
      StartDownloadThread (default EmptyString downloadUrl) latestVersion]).

(** The arguments [_checkForUpdatesWorker] hands to
    [_onUpdateCheckComplete]. *)
Record CheckResult : Type := {
  manual : bool;
  currentVersion : string;
  latestVersion : option string;
  downloadUrl : option string;
  isNewVersion : bool;
  errorMessage : option string
}.

(** [_checkForUpdatesWorker]; [current] is what [_getCurrentAddonVersion]
    returns, and [fetched] what [_fetchLatestReleaseInfo] does: it returns
    the version and the URL, or raises an exception of message [e]. *)
Definition _checkForUpdatesWorker (manual : bool) (current : string)
    (fetched : string * option string + string) : CheckResult :=
  match fetched with
  | inl (latest, url) =>
      {| manual := manual; currentVersion := current;
         latestVersion := Some latest; downloadUrl := url;
         isNewVersion := _isVersionNewer current latest;
         errorMessage := None |}
  | inr e =>
      {| manual := manual; currentVersion := current;
         latestVersion := None; downloadUrl := None;
         isNewVersion := false;
         errorMessage := Some e |}
  end.

Definition update_prompt (latestVersion currentVersion : string) : string :=
  "A new Enchanced Speech History version " +:+ latestVersion +:+ " is available. "
  +:+ "You are currently using " +:+ currentVersion +:+ ". "
  +:+ "Do you want to download and install it now?".

(** [_onUpdateCheckComplete]; [yes] is whether the message box, when it is
    shown, is answered with [wx.YES]. *)
Definition _onUpdateCheckComplete (r : CheckResult) (yes : bool) (self : Updater)
    : Updater * list UpdateEvent :=
  let self := {| _updateCheckInProgress := false;
                 _updateDownloadInProgress := _updateDownloadInProgress self |} in
  if truthy_opt (errorMessage r) then
    (self,
     if manual r
     then [Message "Could not check for Enchanced Speech History updates."]
     else [])
  else if isNewVersion r && truthy_opt (latestVersion r) then
    let latest := default EmptyString (latestVersion r) in
    let box := MessageBox (update_prompt latest (currentVersion r))
                          "Enchanced Speech History update available" in
    if yes then
      let '(self, out) := downloadAndInstallUpdate (downloadUrl r) latest self in
      (self, box :: out)
    else (self, [box])
  else
    (self,
     if manual r
     then [Message "You are using the latest Enchanced Speech History version."]
     else []).

(** [_onUpdateDownloadComplete]; [isfile] is what [os.path.isfile] answers
    for the path, [canInstall] whether the host has
    [addonGui.handleRemoteAddonInstall]. *)
Definition _onUpdateDownloadComplete (downloadedPath errorMessage : option string)
    (isfile canInstall : bool) (self : Updater) : Updater * list UpdateEvent :=
  let self := {| _updateCheckInProgress := _updateCheckInProgress self;
                 _updateDownloadInProgress := false |} in
  if truthy_opt errorMessage then
    (self, [Message "Enchanced Speech History update download failed."])
  else if negb (truthy_opt downloadedPath) || negb isfile then
    (self, [Message "Enchanced Speech History update package could not be prepared."])
  else if canInstall then
    (self, [Message "Installing Enchanced Speech History update.";
            HandleRemoteAddonInstall (default EmptyString downloadedPath)])
  else
    (self, [Message "Installing Enchanced Speech History update.";
            Message "Automatic install is not available in this NVDA version."]).

(** *** The updater and its threads

    A worker thread runs once and ends by posting its completion callback;
    the callbacks and the requests run one after the other. *)
Record UpdateWorld : Type := {
  updater : Updater;
  checkThreads : nat;     (* check workers that have not completed *)
  downloadThreads : nat   (* download workers that have not completed *)
}.

Inductive UpdateAction : Type :=
| RequestCheck (manual : bool)
| CheckCompletes (r : CheckResult) (yes : bool)
| DownloadCompletes (downloadedPath errorMessage : option string)
    (isfile canInstall : bool).

Fixpoint started_checks (out : list UpdateEvent) : nat :=
  match out with
  | [] => O
  | StartCheckThread _ :: out' => S (started_checks out')
  | _ :: out' => started_checks out'
  end.

Fixpoint started_downloads (out : list UpdateEvent) : nat :=
  match out with
  | [] => O
  | StartDownloadThread _ _ :: out' => S (started_downloads out')
  | _ :: out' => started_downloads out'
  end.

(** One step; [None] when the action cannot happen: a callback with no
    thread to post it. *)
Definition update_step (a : UpdateAction) (w : UpdateWorld)
    : option (UpdateWorld * list UpdateEvent) :=
  match a with
  | RequestCheck manual =>
      let '(u, out) := checkForUpdates manual (updater w) in
      Some ({| updater := u;
               checkThreads := checkThreads w + started_checks out;
               downloadThreads := downloadThreads w + started_downloads out |}, out)
  | CheckCompletes r yes =>
      match checkThreads w with
      | O => None
      | S n =>
          let '(u, out) := _onUpdateCheckComplete r yes (updater w) in
          Some ({| updater := u;
                   checkThreads := n + started_checks out;
                   downloadThreads := downloadThreads w + started_downloads out |}, out)
      end
  | DownloadCompletes path err isfile canInstall =>
      match downloadThreads w with
      | O => None
      | S n =>
          let '(u, out) := _onUpdateDownloadComplete path err isfile canInstall (updater w) in
          Some ({| updater := u;
                   checkThreads := checkThreads w + started_checks out;
                   downloadThreads := n + started_downloads out |}, out)
      end
  end.

Definition update_init : UpdateWorld :=
  {| updater := {| _updateCheckInProgress := false;
                   _updateDownloadInProgress := false |};
     checkThreads := 0; downloadThreads := 0 |}.

Inductive update_reachable : UpdateWorld -> Prop :=
| update_reachable_init : update_reachable update_init
| update_reachable_step a w w' out :
    update_reachable w -> update_step a w = Some (w', out) -> update_reachable w'.

End Update.

(** ** Vocabulary of the statements *)

(** The field of a version at a position, [0] past the last field. *)
Definition version_field (version : string) (i : nat) : N :=
  nth i (_versionToTuple version) 0%N.

(** A deque never holds more than [maxlen] items. *)
Definition within_maxlen {A} (d : Deque.deque A) : Prop :=
  (length (Deque.items d) <= Deque.maxlen d)%nat.

(** Appending the items of [xs] one after the other, the first of [xs]
    first. *)
Definition appendleft_all {A} (xs : list A) (d : Deque.deque A) : Deque.deque A :=
  fold_left (fun d x => Deque.appendleft x d) xs d.

(** The sequence as [append_to_history] stores it. *)
Definition stored (seq : SpeechSequence) : SpeechSequence :=
  List.filter (fun command => negb (is_FocusLossCancellable command)) seq.

(** The tone [_beepHistoryBoundary] plays. *)
Definition boundary_beep (conf : Config) (atBeginning : bool) : Event :=
  Beep BOUNDARY_BEEP_FREQUENCY BOUNDARY_BEEP_DURATION
    (if beepBoundaryPanning conf
     then Some (if atBeginning then (0, 100) else (100, 0))
     else None).

(** The plugin with its cursor moved to [pos]. *)
Definition at_pos (pos : Z) (self : GlobalPlugin) : GlobalPlugin :=
  set_history_pos (fun _ => pos) self.

(** [k] calls of a method in a row. *)
Fixpoint times (k : nat) (m : M unit) : M unit :=
  match k with
  | O => mret tt
  | S k' => m;; times k' m
  end.

(** The recorded texts are kept only while recording. *)
Definition idle_means_nothing_recorded (self : GlobalPlugin) : Prop :=
  _recording self = false -> _recorded self = [].

(** The cursor is a position of the history, or [0] when there is none. *)
Definition cursor_in_range (self : GlobalPlugin) : Prop :=
  0 <= history_pos self /\
  (history_pos self < Deque.len (_history self)
   \/ history_pos self = 0 /\ Deque.items (_history self) = []).

(** The method spoke no entry of the history. *)
Definition reads_no_entry (self : GlobalPlugin) (out : list Event) : Prop :=
  forall entry, In entry (Deque.items (_history self)) -> ~ In (Speak entry) out.

(** Every character of [s] satisfies [p]. *)
Fixpoint all_chars (p : ascii -> bool) (s : string) : bool :=
  match s with
  | EmptyString => true
  | String c s' => p c && all_chars p s'
  end.

(** A text of whitespace only (the empty text included). *)
Definition whitespace_only (s : string) : bool := all_chars Py.isspace s.

(** The entries of a snapshot that [doSearch] keeps for a query. *)
Definition matching (text : string) (snapshot : list string) : list string :=
  List.filter (fun item => Py.contains text (Py.lower item)) snapshot.



(** The list of the dialog shows the entries that match the current query. *)
Definition view_in_sync (d : Dialog.HistoryDialog) : Prop :=
  Dialog.searchHistory d = matching (Dialog.curSearch d) (Dialog.history d).

(** The text begins, or ends, with a whitespace character. *)
Definition starts_with_space (s : string) : bool :=
  match s with
  | EmptyString => false
  | String c _ => Py.isspace c
  end.

Fixpoint ends_with_space (s : string) : bool :=
  match s with
  | EmptyString => false
  | String c EmptyString => Py.isspace c
  | String _ s' => ends_with_space s'
  end.

(** The digit runs of a version string as integers: what
    [[int(part) for part in re.findall(r"\d+", s)]] is for the untrimmed
    string. *)
Definition digit_fields (version : string) : list N :=
  map Py.int (Py.findall_digits version).

(** The events of a method that are beeps, speech, or copies. *)
Definition is_Beep (e : Event) : bool :=
  match e with Beep _ _ _ => true | _ => false end.

Definition is_CopyToClip (e : Event) : bool :=
  match e with CopyToClip _ => true | _ => false end.

(** What the user and the host do to the open dialog. *)
Inductive DialogAction : Type :=
| UserSearches (value : string)
| UserRefreshes (addon : GlobalPlugin)
| UserFocuses (index : Z).

Definition dialog_step (sep : string) (a : DialogAction) (d : Dialog.HistoryDialog)
    : Dialog.HistoryDialog :=
  match a with
  | UserSearches value => Dialog.onSearch value d
  | UserRefreshes addon => Dialog.updateHistory sep addon d
  | UserFocuses index => Dialog.userFocuses index d
  end.

(** The dialog after a list of actions, the first of the list first. *)
Definition dialog_run (sep : string) (actions : list DialogAction)
    (d : Dialog.HistoryDialog) : Dialog.HistoryDialog :=
  fold_left (fun d a => dialog_step sep a d) actions d.

(** The rows of the list control are those of the filtered view, and the
    focus is on one of them, or on none when there is no row. *)
Definition list_shows_view (d : Dialog.HistoryDialog) : Prop :=
  Dialog.rows (Dialog.historyList d) = map Dialog.first100 (Dialog.searchHistory d)
  /\ match Dialog.searchHistory d with
     | [] => Dialog.focusedItem (Dialog.historyList d) = -1
     | _ :: _ =>
         0 <= Dialog.focusedItem (Dialog.historyList d)
              < Z.of_nat (length (Dialog.searchHistory d))
     end.

(** The rows of [view] whose index is in [selection], by ascending index. *)
Definition selected_rows (view : list string) (selection : gset Z) : list string :=
  omap (fun i => view !! Z.to_nat i)
       (List.filter (fun i => bool_decide (i ∈ selection))
                    (Selection.range0 (length view))).

(** An asset that the updater can install. *)
Definition installable (asset : Update.Asset) : bool :=
  Update.endswith ".nvda-addon"
    (Py.lower (default EmptyString (Update.asset_name asset)))
  && Update.truthy_opt (Update.browser_download_url asset).

(** The flags of the updater tell the threads that run. *)
Definition flags_count_threads (w : Update.UpdateWorld) : Prop :=
  Update.checkThreads w
  = (if Update._updateCheckInProgress (Update.updater w) then 1 else 0)%nat
  /\ Update.downloadThreads w
     = (if Update._updateDownloadInProgress (Update.updater w) then 1 else 0)%nat.

(** The calls of [_performPostCopyFeedback], in order. *)
Definition post_copy_events (cc : CopyConfig) : list Event :=
  (if in_pair (postCopyAction cc) POST_COPY_BEEP POST_COPY_BOTH
   then [Beep (beepFrequency cc) (beepDuration cc) None] else [])
  ++ (if in_pair (postCopyAction cc) POST_COPY_SPEAK POST_COPY_BOTH
      then [Speak [Str "Copied"]] else []).

(** The world after the host has done a list of actions, the first of the
    list first; [None] when one of the methods raised. *)
Fixpoint host_run (sep : string) (conf : Config) (cc : CopyConfig)
    (actions : list Action) (w : World) : option World :=
  match actions with
  | [] => Some w
  | a :: actions' =>
      match perform sep conf cc a w with
      | None => None
      | Some (w', _) => host_run sep conf cc actions' w'
      end
  end.

(** ** Sample values *)

Definition sample_conf : Config :=
  {| maxHistoryLength := 2; beepBoundaryPanning := true |}.

Definition sample_sequences : list SpeechSequence :=
  [[Str "one"];
   [Str "two"; FocusLossCancellableSpeechCommand; Str "2"];
   [OtherCommand 7; Str "three"]].

(** A plugin with three entries, the cursor on the newest one. *)
Definition sample_plugin : GlobalPlugin :=
  {| _history := Deque.mk [[Str "three"]; [Str "two"]; [Str "one"]] 500;
     _recorded := [];
     _recording := false;
     history_pos := 0 |}.

Definition sample_dialog : Dialog.HistoryDialog :=
  Dialog.__init__ "  " sample_plugin.

Definition sample_copyConf : CopyConfig :=
  {| postCopyAction := POST_COPY_BOTH; beepFrequency := 400; beepDuration := 20;
     trimWhitespaceFromStart := true; trimWhitespaceFromEnd := false |}.

Definition sample_world : World :=
  {| self := __init__ sample_conf; eventQueue := [] |}.

(** A session with a history of two entries at most: three sequences are
    spoken and appended, the user steps back once and copies, starts
    recording, and a fourth sequence is spoken; [busy_world] is the world at
    this point, the fourth sequence still in the queue. *)
Definition sample_session : list Action :=
  [HostSpeaks [Str "one"]; HostRunsQueued;
   HostSpeaks [Str "two"]; HostRunsQueued;
   HostSpeaks [Str "three"]; HostRunsQueued;
   GesturePrevString; GestureCopyLast true;
   GestureStartRecording; HostSpeaks [Str "four"]].

Definition busy_world : World :=
  {| self := {| _history := Deque.mk [[Str "three"]; [Str "two"]] 2;
                _recorded := [];
                _recording := true;
                history_pos := 1 |};
     eventQueue := [[Str "four"]] |}.

(** The session goes on: the fourth sequence is appended, and recorded, and
    the user stops recording. *)
Definition sample_session_end : list Action :=
  [HostRunsQueued; GestureStopRecording].

Definition idle_world : World :=
  {| self := {| _history := Deque.mk [[Str "four"]; [Str "three"]] 2;
                _recorded := [];
                _recording := false;
                history_pos := 0 |};
     eventQueue := [] |}.

(** A plugin whose newest entry has a no-break space before its text and a
    space after it. *)
Definition padded_plugin : GlobalPlugin :=
  {| _history := Deque.mk [[Str (String "160" " hello ")]; [Str "one"]] 500;
     _recorded := [];
     _recording := false;
     history_pos := 0 |}.

(** The capital E with acute accent and its small letter. *)
Definition E_acute : string := String "201" EmptyString.
Definition e_acute : string := String "233" EmptyString.

(** A plugin with three entries that differ in an accented letter. *)
Definition accent_plugin : GlobalPlugin :=
  {| _history := Deque.mk [[Str (E_acute +:+ "cole")]; [Str "ecole"];
                            [Str (e_acute +:+ "COLE")]] 500;
     _recorded := [];
     _recording := false;
     history_pos := 0 |}.

(** The updater while a check runs. *)
Definition checking_world : Update.UpdateWorld :=
  {| Update.updater := {| Update._updateCheckInProgress := true;
                          Update._updateDownloadInProgress := false |};
     Update.checkThreads := 1; Update.downloadThreads := 0 |}.

Definition sample_selecting : Selection.SelectingDialog :=
  {| Selection.dialog := sample_dialog;
     Selection.selection := {[ 0 ]};
     Selection.currentTextElement := EmptyString |}.

Definition sample_release : Update.ReleaseData :=
  {| Update.tag_name := Some "v2.0";
     Update.release_name := Some "Release 2.0";
     Update.assets :=
       [ {| Update.asset_name := Some "source.zip";
            Update.browser_download_url := Some "https://example.org/source.zip" |};
         {| Update.asset_name := Some "enchancedSpeechHistory-2.0.NVDA-ADDON";
            Update.browser_download_url := Some "https://example.org/addon" |} ] |}.

(** * Properties *)

(** ** The builtins on the characters

    [str.isspace] holds for twelve of the characters, and [str.lower]
    changes fifty-six of them, each by 32 and none into an ASCII letter
    unless it was one. *)

Lemma isspace_table c :
  Py.isspace c
  = existsb (N.eqb (N_of_ascii c)) [9; 10; 11; 12; 13; 28; 29; 30; 31; 32; 133; 160]%N.
Proof. destruct c as [[] [] [] [] [] [] [] []]; reflexivity. Qed.

Lemma lower_char_table c :
  let n := N_of_ascii c in
  N_of_ascii (Py.lower_char c)
  = (if existsb (N.eqb n)
          (map N.of_nat (seq 65 26 ++ seq 192 23 ++ seq 216 7))
     then n + 32 else n)%N.
Proof. destruct c as [[] [] [] [] [] [] [] []]; reflexivity. Qed.

Lemma lower_char_idempotent c : Py.lower_char (Py.lower_char c) = Py.lower_char c.
Proof. destruct c as [[] [] [] [] [] [] [] []]; reflexivity. Qed.

(** ** Version comparison *)

Section VersionFacts.

Lemma findall_digits_lstrip_by p s :
  (forall c, p c = true -> Py.isdigit c = false) ->
  Py.findall_digits (Py.lstrip_by p s) = Py.findall_digits s.
Proof.
  intros Hp. induction s as [|c s IH]; simpl; [reflexivity|].
  destruct (p c) eqn:Hc; [|reflexivity].
  rewrite IH. unfold Py.findall_digits. simpl.
  rewrite (Hp c Hc). reflexivity.
Qed.

Lemma isspace_not_digit c : Py.isspace c = true -> Py.isdigit c = false.
Proof.
  destruct c as [[] [] [] [] [] [] [] []]; vm_compute; intros H;
    first [reflexivity | discriminate H].
Qed.

Lemma vV_not_digit c : Py.char_in c "vV" = true -> Py.isdigit c = false.
Proof.
  simpl. destruct (Ascii.eqb_spec c "v") as [->|_]; [reflexivity|].
  destruct (Ascii.eqb_spec c "V") as [->|_]; [reflexivity|discriminate].
Qed.

(** Only the digit runs of a version string count: the trimming done
    before the scan never removes a digit. *)
Lemma versionToTuple_runs version :
  _versionToTuple version =
  match map Py.int (Py.findall_digits (Py.rstrip version)) with
  | [] => [0%N]
  | parts => parts
  end.
Proof.
  unfold _versionToTuple, Py.lstrip_chars, Py.strip, Py.lstrip. cbv zeta.
  rewrite !findall_digits_lstrip_by; auto using isspace_not_digit, vV_not_digit.
  destruct (map Py.int _); reflexivity.
Qed.

Lemma rstrip_cons_keep c s :
  Py.isspace c = false -> Py.rstrip (String c s) = String c (Py.rstrip s).
Proof.
  intros Hc. unfold Py.rstrip. simpl. rewrite Hc.
  destruct (Py.rstrip_by Py.isspace s); reflexivity.
Qed.

Lemma versionToTuple_skip c s :
  Py.isspace c = false -> Py.isdigit c = false ->
  _versionToTuple (String c s) = _versionToTuple s.
Proof.
  intros Hs Hd. rewrite !versionToTuple_runs, rstrip_cons_keep by assumption.
  unfold Py.findall_digits. simpl. rewrite Hd. reflexivity.
Qed.

Lemma nth_tuple_mul_zero k i : nth i (Py.tuple_mul [0%N] k) 0%N = 0%N.
Proof.
  revert i. induction k as [|k IH]; intros [|i]; simpl; auto.
Qed.

Lemma nth_pad_zero (t : list N) k i :
  nth i (t ++ Py.tuple_mul [0%N] k) 0%N = nth i t 0%N.
Proof.
  destruct (Nat.lt_ge_cases i (length t)) as [Hlt|Hge].
  - apply app_nth1. exact Hlt.
  - rewrite app_nth2, nth_tuple_mul_zero by exact Hge.
    symmetry. apply nth_overflow. exact Hge.
Qed.

Lemma length_tuple_mul_one (x : N) k : length (Py.tuple_mul [x] k) = k.
Proof. induction k; simpl; congruence. Qed.

Lemma tuple_gt_fields (a b : list N) :
  length a = length b ->
  Py.tuple_gt a b = true <->
  exists i, (forall j, (j < i)%nat -> nth j a 0%N = nth j b 0%N)
            /\ (nth i b 0%N < nth i a 0%N)%N.
Proof.
  revert b. induction a as [|x a IH]; intros [|y b] Hlen; try discriminate.
  - simpl. split; [discriminate|]. intros [[|i] [_ Hi]]; simpl in Hi; lia.
  - simpl in Hlen. injection Hlen as Hlen. simpl.
    destruct (N.eqb_spec x y) as [->|Hne].
    + rewrite (IH b Hlen). split.
      * intros [i [Hpre Hi]]. exists (S i). split; [|exact Hi].
        intros [|j] Hj; simpl; [reflexivity|]. apply Hpre. lia.
      * intros [[|i] [Hpre Hi]]; simpl in Hi; [lia|].
        exists i. split; [|exact Hi].
        intros j Hj. apply (Hpre (S j)). lia.
    + rewrite N.ltb_lt. split.
      * intros Hlt. exists 0%nat. split; [intros j Hj; lia|exact Hlt].
      * intros [[|i] [Hpre Hi]]; simpl in Hi; [exact Hi|].
        exfalso. apply Hne. apply (Hpre 0%nat). lia.
Qed.

End VersionFacts.

(** C8. [_isVersionNewer current latest] compares the two versions field by
    field as tuples of integers, a missing trailing field counting as [0]:
    it answers [True] exactly when, at the first position where the fields
    differ, the field of [latest] is the greater one. A leading ['v'] (or
    ['V']) does not change the tuple. In particular ["1.2.1"] is newer than
    ["1.2"] and not the other way round, ["2.0"] is newer than ["1.9.9"],
    and neither of ["v1.0"] and ["1.0"] is newer than the other. *)
Theorem isVersionNewer_fieldwise :
  (forall current latest,
      _isVersionNewer current latest = true <->
      exists i,
        (forall j, (j < i)%nat -> version_field latest j = version_field current j)
        /\ (version_field current i < version_field latest i)%N)
  /\ (forall version,
         _versionToTuple (String "v" version) = _versionToTuple version
         /\ _versionToTuple (String "V" version) = _versionToTuple version)
  /\ _versionToTuple "1.2" = [1%N; 2%N]
  /\ _versionToTuple "1.2.1" = [1%N; 2%N; 1%N]
  /\ _isVersionNewer "1.2" "1.2.1" = true
  /\ _isVersionNewer "1.2.1" "1.2" = false
  /\ _isVersionNewer "1.9.9" "2.0" = true
  /\ _isVersionNewer "2.0" "1.9.9" = false
  /\ _isVersionNewer "v1.0" "1.0" = false
  /\ _isVersionNewer "1.0" "v1.0" = false.
Proof.
  split; [|split; [|repeat split; vm_compute; reflexivity]].
  - intros current latest. unfold _isVersionNewer, version_field. cbv zeta.
    rewrite tuple_gt_fields.
    + split; intros [i [Hpre Hi]]; exists i; rewrite !nth_pad_zero in *;
        (split; [|exact Hi]); intros j Hj; specialize (Hpre j Hj);
        rewrite !nth_pad_zero in *; exact Hpre.
    + rewrite !length_app, !length_tuple_mul_one. lia.
  - intros version. split; apply versionToTuple_skip; reflexivity.
Qed.

(** ** The history deque *)

Section DequeFacts.

Context {A : Type}.
Implicit Types (d : Deque.deque A) (x : A) (xs : list A).

Lemma new_within_maxlen n : within_maxlen (Deque.new (A:=A) n).
Proof. unfold within_maxlen. simpl. lia. Qed.

Lemma appendleft_maxlen x d :
  Deque.maxlen (Deque.appendleft x d) = Deque.maxlen d.
Proof. reflexivity. Qed.

Lemma appendleft_items x d :
  within_maxlen d ->
  Deque.items (Deque.appendleft x d) = take (Deque.maxlen d) (x :: Deque.items d).
Proof.
  unfold within_maxlen, Deque.appendleft. intros Hd. cbn [Deque.items].
  destruct (Nat.ltb_spec (Deque.maxlen d) (length (x :: Deque.items d))) as [Hlt|Hge].
  - rewrite removelast_firstn_len. f_equal. simpl in *. lia.
  - symmetry. apply take_ge. exact Hge.
Qed.

Lemma appendleft_within_maxlen x d :
  within_maxlen d -> within_maxlen (Deque.appendleft x d).
Proof.
  intros Hd. unfold within_maxlen.
  rewrite appendleft_items, appendleft_maxlen, length_take by exact Hd. lia.
Qed.

Lemma appendleft_all_items xs d :
  within_maxlen d ->
  Deque.maxlen (appendleft_all xs d) = Deque.maxlen d /\
  Deque.items (appendleft_all xs d)
  = take (Deque.maxlen d) (rev xs ++ Deque.items d).
Proof.
  revert d. induction xs as [|x xs IH]; intros d Hd.
  - split; [reflexivity|]. symmetry. apply take_ge. exact Hd.
  - cbn [appendleft_all fold_left].
    destruct (IH (Deque.appendleft x d) (appendleft_within_maxlen x d Hd))
      as [Hmax Hitems].
    unfold appendleft_all in *. rewrite Hmax, Hitems, appendleft_maxlen.
    split; [reflexivity|].
    rewrite appendleft_items by exact Hd.
    cbn [rev]. rewrite <- app_assoc. cbn [app].
    set (n := Deque.maxlen d). set (l := Deque.items d).
    destruct (Nat.le_gt_cases n (length (rev xs))) as [Hle|Hgt].
    + rewrite !take_app_le by exact Hle. reflexivity.
    + rewrite !take_app_ge by lia. f_equal.
      rewrite take_take. f_equal. lia.
Qed.

End DequeFacts.

(** ** The methods of the plugin, run *)

Ltac run_method :=
  unfold mbind, M_bind, mret, M_ret, gets, modify, tell, lift; cbn.

Section MethodFacts.

Variable sep : string.
Variable conf : Config.


Implicit Types (self : GlobalPlugin) (seq : SpeechSequence).

Lemma bind_run {A B} (m : M A) (k : A -> M B) self a self1 out1 :
  m self = Some (a, self1, out1) ->
  (m ≫= k) self =
  match k a self1 with
  | None => None
  | Some (b, self2, out2) => Some (b, self2, out1 ++ out2)
  end.
Proof. intros H. unfold mbind, M_bind. rewrite H. reflexivity. Qed.

Lemma str_items_stored seq : str_items (stored seq) = str_items seq.
Proof.
  induction seq as [|[text| |tag] seq IH]; simpl; rewrite ?IH; reflexivity.
Qed.

Lemma getSequenceText_stored seq :
  getSequenceText sep (stored seq) = getSequenceText sep seq.
Proof. unfold getSequenceText. rewrite str_items_stored. reflexivity. Qed.

Lemma beepHistoryBoundary_run atBeginning self :
  _beepHistoryBoundary conf atBeginning self
  = Some (tt, self, [boundary_beep conf atBeginning]).
Proof.
  unfold _beepHistoryBoundary, boundary_beep.
  destruct (beepBoundaryPanning conf), atBeginning; reflexivity.
Qed.

Lemma append_to_history_run seq self :
  append_to_history sep seq self =
  Some (tt,
        {| _history := Deque.appendleft (stored seq) (_history self);
           _recorded := if _recording self
                        then _recorded self ++ [getSequenceText sep seq]
                        else _recorded self;
           _recording := _recording self;
           history_pos := 0 |},
        []).
Proof.
  rewrite <- getSequenceText_stored.
  unfold append_to_history. destruct self as [h recorded [] pos]; reflexivity.
Qed.

Lemma startRecording_run self :
  script_startRecording self =
  if _recording self
  then Some (tt, self, [Speak [Str "Already recording speech"]])
  else Some (tt, set_recording true self, [Speak [Str "Started recording speech"]]).
Proof.
  unfold script_startRecording. destruct self as [h recorded [] pos]; reflexivity.
Qed.

Lemma stopRecording_run self :
  script_stopRecording self =
  if _recording self
  then Some (tt,
             set_recorded (fun _ => []) (set_recording false self),
             if Py.truthy (Py.join LF (_recorded self))
             then [CopyToClip (Py.join LF (_recorded self));
                   Speak [Str "Recorded speech copied to clipboard"]]
             else [Speak [Str "No recorded speech to copy"]])
  else Some (tt, self, [Speak [Str "Not currently recording speech"]]).
Proof.
  unfold script_stopRecording.
  destruct self as [h recorded [] pos]; run_method; [|reflexivity].
  destruct (Py.truthy _); reflexivity.
Qed.

Lemma clearHistory_run self :
  clearHistory self =
  Some (tt,
        {| _history := Deque.clear (_history self); _recorded := [];
           _recording := _recording self; history_pos := 0 |},
        []).
Proof. reflexivity. Qed.

Lemma mySpeak_run sequence self :
  mySpeak sep sequence self =
  Some (tt, self,
        Speak sequence ::
        if Py.truthy (Py.strip (getSequenceText sep sequence))
        then [QueueFunction sequence] else []).
Proof.
  unfold mySpeak. run_method.
  destruct (Py.truthy _); reflexivity.
Qed.

Lemma getitem_lookup {A} (d : Deque.deque A) (i : Z) (x : A) :
  0 <= i -> Deque.items d !! Z.to_nat i = Some x -> Deque.getitem d i = Some x.
Proof.
  intros Hi Hx. unfold Deque.getitem, Deque.len.
  apply lookup_lt_Some in Hx as Hlt.
  cbv zeta. rewrite !(proj2 (Z.ltb_ge i 0) Hi).
  rewrite (proj2 (Z.leb_gt _ i)) by lia. exact Hx.
Qed.

Lemma lookup_nonempty {A} (d : Deque.deque A) (i : nat) (x : A) :
  Deque.items d !! i = Some x -> Deque.nonempty d = true.
Proof. unfold Deque.nonempty. destruct (Deque.items d); [discriminate|reflexivity]. Qed.

Lemma prevString_inside self entry :
  0 <= history_pos self ->
  Deque.items (_history self) !! Z.to_nat (history_pos self + 1) = Some entry ->
  script_prevString conf self
  = Some (tt, at_pos (history_pos self + 1) self, [Speak entry]).
Proof.
  intros Hpos Hentry. unfold script_prevString.
  apply lookup_lt_Some in Hentry as Hlt.
  destruct self as [h recorded recording pos]. cbn in *.
  run_method. rewrite (lookup_nonempty _ _ _ Hentry). cbn.
  rewrite Z.gtb_ltb, (proj2 (Z.ltb_ge _ _)) by (unfold Deque.len; lia). cbn.
  rewrite (getitem_lookup _ _ entry) by (assumption || lia). reflexivity.
Qed.

Lemma prevString_boundary self entry :
  history_pos self = Deque.len (_history self) - 1 ->
  Deque.items (_history self) !! Z.to_nat (history_pos self) = Some entry ->
  script_prevString conf self
  = Some (tt, self, [boundary_beep conf false; Speak entry]).
Proof.
  intros Hpos Hentry. unfold script_prevString.
  apply lookup_lt_Some in Hentry as Hlt.
  destruct self as [h recorded recording pos]. cbn in *.
  run_method. rewrite (lookup_nonempty _ _ _ Hentry). cbn.
  rewrite Z.gtb_ltb, (proj2 (Z.ltb_lt _ _)) by lia.
  rewrite beepHistoryBoundary_run. unfold set_history_pos. cbn.
  replace (pos + 1 - 1) with pos by lia.
  rewrite (getitem_lookup _ _ entry) by (assumption || unfold Deque.len in *; lia).
  reflexivity.
Qed.

Lemma nextString_inside self entry :
  0 < history_pos self ->
  Deque.items (_history self) !! Z.to_nat (history_pos self - 1) = Some entry ->
  script_nextString conf self
  = Some (tt, at_pos (history_pos self - 1) self, [Speak entry]).
Proof.
  intros Hpos Hentry. unfold script_nextString.
  destruct self as [h recorded recording pos]. cbn in *.
  run_method. rewrite (lookup_nonempty _ _ _ Hentry). cbn.
  rewrite (proj2 (Z.ltb_ge _ _)) by lia. cbn.
  rewrite (getitem_lookup _ _ entry) by (assumption || lia). reflexivity.
Qed.

Lemma nextString_boundary self entry :
  history_pos self = 0 ->
  Deque.items (_history self) !! 0%nat = Some entry ->
  script_nextString conf self
  = Some (tt, self, [boundary_beep conf true; Speak entry]).
Proof.
  intros Hpos Hentry. unfold script_nextString.
  destruct self as [h recorded recording pos]. cbn in *. subst pos.
  run_method. rewrite (lookup_nonempty _ _ _ Hentry). cbn.
  change (0 - 1 <? 0) with true. cbn iota beta.
  rewrite beepHistoryBoundary_run. unfold set_history_pos. cbn.
  change (0 - 1 + 1) with 0.
  rewrite (getitem_lookup _ _ entry) by (assumption || lia). reflexivity.
Qed.

Lemma history_empty_no_items self :
  Deque.items (_history self) = [] ->
  script_prevString conf self = Some (tt, self, [Speak [Str "No history items."]])
  /\ script_nextString conf self = Some (tt, self, [Speak [Str "No history items."]]).
Proof.
  intros Hempty. unfold script_prevString, script_nextString. run_method.
  unfold Deque.nonempty. rewrite Hempty. split; reflexivity.
Qed.

Lemma push_all_run seqs self :
  push_all sep seqs self =
  Some (tt,
        match seqs with
        | [] => self
        | _ :: _ =>
            {| _history := appendleft_all (map stored seqs) (_history self);
               _recorded := if _recording self
                            then _recorded self ++ map (getSequenceText sep) seqs
                            else _recorded self;
               _recording := _recording self;
               history_pos := 0 |}
        end,
        []).
Proof.
  revert self. induction seqs as [|seq seqs IH]; intros self; [reflexivity|].
  cbn [push_all]. rewrite (bind_run _ _ _ _ _ _ (append_to_history_run seq self)).
  rewrite IH. destruct seqs as [|seq' seqs]; [reflexivity|].
  cbn. destruct (_recording self); rewrite <- ?app_assoc; reflexivity.
Qed.

End MethodFacts.

(** ** The history buffer *)

Section HistoryClaims.

Variable sep : string.
Variable conf : Config.

Lemma take_min_length {A} (l : list A) n :
  take (Nat.min (length l) n) l = take n l.
Proof.
  destruct (Nat.le_gt_cases n (length l)) as [Hle|Hgt].
  - rewrite Nat.min_r by exact Hle. reflexivity.
  - rewrite Nat.min_l, !take_ge by lia. reflexivity.
Qed.

Lemma pushed_history seqs :
  exists self',
    push_all sep seqs (__init__ conf) = Some (tt, self', [])
    /\ Deque.maxlen (_history self') = maxHistoryLength conf
    /\ Deque.items (_history self')
       = take (maxHistoryLength conf) (rev (map stored seqs)).
Proof.
  rewrite push_all_run. eexists. split; [reflexivity|].
  destruct seqs as [|seq seqs].
  - split; [reflexivity|]. destruct (maxHistoryLength conf); reflexivity.
  - cbn [_history].
    destruct (appendleft_all_items (map stored (seq :: seqs))
                (Deque.new (maxHistoryLength conf))
                (new_within_maxlen _)) as [Hmax Hitems].
    change (_history (__init__ conf)) with (Deque.new (A:=SpeechSequence) (maxHistoryLength conf)).
    split; [exact Hmax|]. rewrite Hitems. cbn [Deque.new Deque.items Deque.maxlen].
    rewrite app_nil_r. reflexivity.
Qed.

(** C1. After any sequence of pushes into the history of a fresh plugin
    whose capacity [maxHistoryLength] is at least 1, the history holds at
    most [maxHistoryLength] entries, and they are exactly the
    [min(n, maxHistoryLength)] entries pushed last, the latest first: the
    entry pushed last is at position 0. This is stated for the deque
    itself ([appendleft] on a new deque) and for [append_to_history],
    which holds an entry as it stores it, see [stored]. The statement is
    about every sequence of pushes, hence about the state after each
    push. *)
Theorem history_holds_most_recent (seqs : list SpeechSequence) :
  (MIN_HISTORY_ENTRIES <= maxHistoryLength conf)%nat ->
  Deque.items (appendleft_all seqs (Deque.new (maxHistoryLength conf)))
  = take (Nat.min (length seqs) (maxHistoryLength conf)) (rev seqs)
  /\ exists self',
    push_all sep seqs (__init__ conf) = Some (tt, self', [])
    /\ (length (Deque.items (_history self')) <= maxHistoryLength conf)%nat
    /\ Deque.items (_history self')
       = take (Nat.min (length seqs) (maxHistoryLength conf))
              (rev (map stored seqs))
    /\ (forall seq, last seqs = Some seq ->
          Deque.getitem (_history self') 0 = Some (stored seq)
          /\ history_pos self' = 0).
Proof.
  intros Hcap. split.
  { destruct (appendleft_all_items seqs (Deque.new (maxHistoryLength conf))
                (new_within_maxlen _)) as [_ ->].
    cbn [Deque.new Deque.items Deque.maxlen]. rewrite app_nil_r.
    rewrite <- (take_min_length (rev seqs)), length_rev. reflexivity. }
  destruct (pushed_history seqs) as (self' & Hrun & Hmax & Hitems).
  exists self'. split; [exact Hrun|].
  assert (Hmin : Deque.items (_history self')
                 = take (Nat.min (length seqs) (maxHistoryLength conf))
                        (rev (map stored seqs))).
  { rewrite Hitems, <- (take_min_length (rev (map stored seqs))).
    rewrite length_rev, length_map. reflexivity. }
  split; [|split; [exact Hmin|]].
  - rewrite Hitems, length_take. lia.
  - intros seq Hlast. apply last_Some in Hlast as [seqs' ->]. split.
    + apply getitem_lookup; [lia|]. rewrite Hitems.
      rewrite map_app, rev_app_distr. cbn.
      unfold MIN_HISTORY_ENTRIES in Hcap.
      destruct (maxHistoryLength conf); [lia|reflexivity].
    + rewrite push_all_run in Hrun. destruct seqs'; injection Hrun as <-; reflexivity.
Qed.

End HistoryClaims.

(** ** Review of the history with the cursor *)

Section NavigationClaims.

Variable conf : Config.

Implicit Types (self : GlobalPlugin).

Lemma at_pos_at_pos i j self : at_pos i (at_pos j self) = at_pos i self.
Proof. reflexivity. Qed.

Lemma at_pos_same self : at_pos (history_pos self) self = self.
Proof. destruct self; reflexivity. Qed.

(** [k] moves back from position [j], none of them past the oldest entry. *)
Lemma times_prevString_inside k : forall j self,
  (j + k < length (Deque.items (_history self)))%nat ->
  times k (script_prevString conf) (at_pos (Z.of_nat j) self)
  = Some (tt, at_pos (Z.of_nat (j + k)) self,
          map Speak (take k (drop (S j) (Deque.items (_history self))))).
Proof.
  induction k as [|k IH]; intros j self Hlt.
  - rewrite Nat.add_0_r. reflexivity.
  - destruct (lookup_lt_is_Some_2 (Deque.items (_history self)) (S j))
      as [entry Hentry]; [lia|].
    cbn [times].
    rewrite (bind_run _ _ _ tt (at_pos (Z.of_nat (S j)) self) [Speak entry]).
    + rewrite IH by lia. rewrite (drop_S _ _ _ Hentry).
      replace (S j + k)%nat with (j + S k)%nat by lia. reflexivity.
    + rewrite (prevString_inside conf _ entry); cbn [at_pos set_history_pos history_pos _history].
      * rewrite at_pos_at_pos.
        replace (Z.of_nat j + 1) with (Z.of_nat (S j)) by lia. reflexivity.
      * lia.
      * replace (Z.to_nat (Z.of_nat j + 1)) with (S j) by lia. exact Hentry.
Qed.

(** C3. In a history of [N] entries with the cursor at 0, each of the
    first [N-1] moves back speaks the next older entry without a boundary
    beep, the cursor going through 1, 2, ..., [N-1]; the [N]th move back
    plays the boundary beep of the oldest end and leaves the cursor at
    [N-1]. *)
Theorem moveBack_reaches_oldest self :
  let entries := Deque.items (_history self) in
  let N := length entries in
  (1 <= N)%nat ->
  history_pos self = 0 ->
  (forall k, (k <= N - 1)%nat ->
     times k (script_prevString conf) self
     = Some (tt, at_pos (Z.of_nat k) self, map Speak (take k (drop 1 entries))))
  /\ exists oldest,
       entries !! (N - 1)%nat = Some oldest
       /\ script_prevString conf (at_pos (Z.of_nat (N - 1)) self)
          = Some (tt, at_pos (Z.of_nat (N - 1)) self,
                  [boundary_beep conf false; Speak oldest])
       /\ times N (script_prevString conf) self
          = Some (tt, at_pos (Z.of_nat (N - 1)) self,
                  map Speak (drop 1 entries)
                  ++ [boundary_beep conf false; Speak oldest]).
Proof.
  intros entries N HN Hpos.
  assert (Hself : at_pos (Z.of_nat 0) self = self).
  { change (Z.of_nat 0) with 0. rewrite <- Hpos. apply at_pos_same. }
  assert (Hwalk : forall k, (k <= N - 1)%nat ->
     times k (script_prevString conf) self
     = Some (tt, at_pos (Z.of_nat k) self, map Speak (take k (drop 1 entries)))).
  { intros k Hk. rewrite <- Hself at 1.
    rewrite times_prevString_inside by (fold entries N; lia). reflexivity. }
  split; [exact Hwalk|].
  destruct (lookup_lt_is_Some_2 entries (N - 1)) as [oldest Holdest]; [lia|].
  exists oldest. split; [exact Holdest|].
  assert (Hlast : script_prevString conf (at_pos (Z.of_nat (N - 1)) self)
          = Some (tt, at_pos (Z.of_nat (N - 1)) self,
                  [boundary_beep conf false; Speak oldest])).
  { apply prevString_boundary; cbn [at_pos set_history_pos history_pos _history].
    - unfold Deque.len. fold entries N. lia.
    - rewrite Nat2Z.id. exact Holdest. }
  split; [exact Hlast|].
  replace N with ((N - 1) + 1)%nat at 1 by lia.
  assert (Hsplit : forall a b (m : M unit) s,
            times (a + b) m s = (times a m;; times b m) s).
  { clear. induction a as [|a IHa]; intros b m s.
    - cbn. unfold mbind, M_bind, mret, M_ret. destruct (times b m s) as [[[[] ?] ?]|]; reflexivity.
    - cbn [Nat.add times]. unfold mbind, M_bind in *.
      destruct (m s) as [[[[] s1] o1]|]; [|reflexivity].
      rewrite IHa. destruct (times a m s1) as [[[[] s2] o2]|]; [|reflexivity].
      destruct (times b m s2) as [[[[] s3] o3]|]; [|reflexivity].
      rewrite app_assoc. reflexivity. }
  rewrite Hsplit. rewrite (bind_run _ _ _ _ _ _ (Hwalk (N - 1)%nat (Nat.le_refl _))).
  cbn [times]. rewrite (bind_run _ _ _ _ _ _ Hlast). cbn.
  rewrite take_ge by (rewrite length_drop; fold N; lia).
  reflexivity.
Qed.

(** C2, as the code has it. With the cursor on an entry, a move back from
    the oldest entry, and a move forward from the newest one, leave the
    plugin as it is, play the boundary beep ([atBeginning] is [False] at
    the oldest end and [True] at the newest end) and then speak the entry
    under the cursor once more. The two beeps differ exactly when
    [beepBoundaryPanning] is on. *)
Theorem boundary_move_beeps_and_repeats self :
  Deque.nonempty (_history self) = true ->
  cursor_in_range self ->
  exists entry,
    Deque.getitem (_history self) (history_pos self) = Some entry
    /\ (history_pos self + 1 > Deque.len (_history self) - 1 ->
        script_prevString conf self
        = Some (tt, self, [boundary_beep conf false; Speak entry]))
    /\ (history_pos self - 1 < 0 ->
        script_nextString conf self
        = Some (tt, self, [boundary_beep conf true; Speak entry]))
    /\ (boundary_beep conf false <> boundary_beep conf true
        <-> beepBoundaryPanning conf = true).
Proof.
  intros Hne [Hlo Hhi].
  assert (Hlt : history_pos self < Deque.len (_history self)).
  { destruct Hhi as [Hlt|[_ Hnil]]; [exact Hlt|].
    unfold Deque.nonempty in Hne. rewrite Hnil in Hne. discriminate. }
  destruct (lookup_lt_is_Some_2 (Deque.items (_history self))
              (Z.to_nat (history_pos self))) as [entry Hentry].
  { unfold Deque.len in Hlt. lia. }
  exists entry. split; [apply getitem_lookup; assumption|].
  split; [|split].
  - intros Hout. apply prevString_boundary; [lia|exact Hentry].
  - intros Hout. assert (Hzero : history_pos self = 0) by lia.
    apply nextString_boundary; [exact Hzero|]. rewrite Hzero in Hentry. exact Hentry.
  - unfold boundary_beep. destruct (beepBoundaryPanning conf); split;
      intros H; try reflexivity; try discriminate; congruence.
Qed.

(** The review scripts never raise with the cursor in range, and keep it in
    range. *)
Lemma prevString_in_range self :
  cursor_in_range self ->
  exists self' out,
    script_prevString conf self = Some (tt, self', out)
    /\ _history self' = _history self
    /\ cursor_in_range self'.
Proof.
  intros [Hlo Hhi].
  destruct (Deque.items (_history self)) as [|first rest] eqn:Hitems.
  { destruct (history_empty_no_items conf self Hitems) as [-> _].
    do 2 eexists. split; [reflexivity|]. split; [reflexivity|].
    split; [exact Hlo|].
    destruct Hhi as [Hlt|[Hzero _]]; [left; exact Hlt|right; split; assumption]. }
  destruct Hhi as [Hlt|[_ Hnil]]; [|discriminate].
  unfold Deque.len in Hlt.
  destruct (Z.lt_ge_cases (history_pos self + 1) (Deque.len (_history self)))
    as [Hin|Hout]; unfold Deque.len in *.
  - destruct (lookup_lt_is_Some_2 (Deque.items (_history self))
                (Z.to_nat (history_pos self + 1))) as [entry Hentry]; [lia|].
    rewrite (prevString_inside conf self entry Hlo Hentry).
    do 2 eexists. split; [reflexivity|]. split; [reflexivity|].
    split; cbn; [lia|]. left. unfold Deque.len. cbn. lia.
  - destruct (lookup_lt_is_Some_2 (Deque.items (_history self))
                (Z.to_nat (history_pos self))) as [entry Hentry]; [lia|].
    rewrite (prevString_boundary conf self entry); [|unfold Deque.len; lia|exact Hentry].
    do 2 eexists. split; [reflexivity|]. split; [reflexivity|].
    split; [exact Hlo|]. left. unfold Deque.len. lia.
Qed.

Lemma nextString_in_range self :
  cursor_in_range self ->
  exists self' out,
    script_nextString conf self = Some (tt, self', out)
    /\ _history self' = _history self
    /\ cursor_in_range self'.
Proof.
  intros [Hlo Hhi].
  destruct (Deque.items (_history self)) as [|first rest] eqn:Hitems.
  { destruct (history_empty_no_items conf self Hitems) as [_ ->].
    do 2 eexists. split; [reflexivity|]. split; [reflexivity|].
    split; [exact Hlo|].
    destruct Hhi as [Hlt|[Hzero _]]; [left; exact Hlt|right; split; assumption]. }
  destruct Hhi as [Hlt|[_ Hnil]]; [|discriminate].
  unfold Deque.len in Hlt.
  destruct (Z.eq_dec (history_pos self) 0) as [Hzero|Hpos].
  - rewrite (nextString_boundary conf self first Hzero); [|rewrite Hitems; reflexivity].
    do 2 eexists. split; [reflexivity|]. split; [reflexivity|].
    split; [exact Hlo|]. left. unfold Deque.len. lia.
  - destruct (lookup_lt_is_Some_2 (Deque.items (_history self))
                (Z.to_nat (history_pos self - 1))) as [entry Hentry]; [lia|].
    rewrite (nextString_inside conf self entry); [|lia|exact Hentry].
    do 2 eexists. split; [reflexivity|]. split; [reflexivity|].
    split; cbn; [lia|]. left. unfold Deque.len. cbn. lia.
Qed.

End NavigationClaims.

(** C2, as stated, fails: a history of one entry, the cursor on it. The move
    back cannot leave the entry, plays the boundary beep, and speaks the
    entry. *)
Lemma boundary_move_reads_entry :
  let conf := {| maxHistoryLength := 500; beepBoundaryPanning := false |} in
  let entry := [Str "hello"] in
  let self := {| _history := Deque.mk [entry] 500; _recorded := [];
                 _recording := false; history_pos := 0 |} in
  let out := [Beep 200 100 None; Speak entry] in
  push_all "  " [entry] (__init__ conf) = Some (tt, self, [])
  /\ history_pos self + 1 > Deque.len (_history self) - 1
  /\ script_prevString conf self = Some (tt, self, out)
  /\ script_nextString conf self = Some (tt, self, out)
  /\ ~ reads_no_entry self out.
Proof.
  cbv zeta. repeat split; try reflexivity.
  intros Hno. apply (Hno [Str "hello"]); cbn; auto.
Qed.

(** ** Copying the entry under the cursor *)

Section CopyFacts.

Variable sep : string.
Variable cc : CopyConfig.

Implicit Types (self : GlobalPlugin).

Lemma cursor_entry self :
  Deque.nonempty (_history self) = true ->
  cursor_in_range self ->
  exists entry,
    Deque.items (_history self) !! Z.to_nat (history_pos self) = Some entry
    /\ Deque.getitem (_history self) (history_pos self) = Some entry.
Proof.
  intros Hne [Hlo Hhi].
  assert (Hlt : history_pos self < Deque.len (_history self)).
  { destruct Hhi as [Hlt|[_ Hnil]]; [exact Hlt|].
    unfold Deque.nonempty in Hne. rewrite Hnil in Hne. discriminate. }
  destruct (lookup_lt_is_Some_2 (Deque.items (_history self))
              (Z.to_nat (history_pos self))) as [entry Hentry].
  { unfold Deque.len in Hlt. lia. }
  exists entry. split; [exact Hentry|]. apply getitem_lookup; assumption.
Qed.

Lemma performPostCopyFeedback_run self :
  _performPostCopyFeedback cc self = Some (tt, self, post_copy_events cc).
Proof.
  unfold _performPostCopyFeedback, post_copy_events. cbv zeta.
  destruct (in_pair (postCopyAction cc) POST_COPY_BEEP POST_COPY_BOTH),
    (in_pair (postCopyAction cc) POST_COPY_SPEAK POST_COPY_BOTH); reflexivity.
Qed.

Lemma copyLast_empty copied self :
  Deque.items (_history self) = [] ->
  script_copyLast sep cc copied self
  = Some (tt, self, [Speak [Str "No history items."]]).
Proof.
  intros Hempty. unfold script_copyLast. run_method.
  unfold Deque.nonempty. rewrite Hempty. reflexivity.
Qed.

Lemma copyLast_entry copied self entry :
  Deque.getitem (_history self) (history_pos self) = Some entry ->
  Deque.nonempty (_history self) = true ->
  script_copyLast sep cc copied self
  = Some (tt, self,
          CopyToClip
            (let text := getSequenceText sep entry in
             let text := if trimWhitespaceFromStart cc then Py.lstrip text else text in
             if trimWhitespaceFromEnd cc then Py.rstrip text else text)
          :: (if copied then post_copy_events cc else [])).
Proof.
  intros Hentry Hne. unfold script_copyLast.
  unfold mbind, M_bind, gets, lift, tell. rewrite Hne. cbn [negb].
  rewrite Hentry. cbv zeta.
  destruct copied; [rewrite performPostCopyFeedback_run|]; reflexivity.
Qed.

Lemma copyLast_frame copied self self' out :
  script_copyLast sep cc copied self = Some (tt, self', out) -> self' = self.
Proof.
  unfold script_copyLast. unfold mbind, M_bind, gets, lift, tell.
  destruct (Deque.nonempty (_history self)); cbn [negb]; [|cbn; congruence].
  destruct (Deque.getitem _ _); [|discriminate]. cbv zeta.
  destruct copied; [rewrite performPostCopyFeedback_run|]; cbn; congruence.
Qed.

Lemma copyLast_in_range copied self :
  cursor_in_range self ->
  exists out, script_copyLast sep cc copied self = Some (tt, self, out).
Proof.
  intros Hcur. destruct (Deque.nonempty (_history self)) eqn:Hne.
  - destruct (cursor_entry self Hne Hcur) as (entry & _ & Hentry).
    rewrite (copyLast_entry copied self entry Hentry Hne). eauto.
  - rewrite copyLast_empty; [eauto|].
    unfold Deque.nonempty in Hne.
    destruct (Deque.items (_history self)); [reflexivity|discriminate].
Qed.

End CopyFacts.

(** ** The plugin in the host never raises *)

Section HostFacts.

Variable sep : string.
Variable conf : Config.
Variable cc : CopyConfig.

Implicit Types (self : GlobalPlugin) (w : World).

Lemma init_cursor_in_range : cursor_in_range (__init__ conf).
Proof. split; [reflexivity|]. right. split; reflexivity. Qed.

Lemma zero_cursor_in_range self :
  history_pos self = 0 -> cursor_in_range self.
Proof.
  intros Hzero. unfold cursor_in_range, Deque.len. rewrite Hzero.
  split; [reflexivity|].
  destruct (Deque.items (_history self)); [right; split; reflexivity|left; cbn; lia].
Qed.

Lemma method_cursor_in_range a w :
  cursor_in_range (self w) ->
  exists self' out,
    method_of sep conf cc a w (self w) = Some (tt, self', out)
    /\ cursor_in_range self'.
Proof.
  intros Hcur. destruct a; cbn [method_of].
  - rewrite mySpeak_run. eauto.
  - destruct (eventQueue w) as [|sequence queue].
    + do 2 eexists. split; [reflexivity|exact Hcur].
    + rewrite append_to_history_run. do 2 eexists. split; [reflexivity|].
      apply zero_cursor_in_range. reflexivity.
  - destruct (prevString_in_range conf _ Hcur) as (self' & out & -> & _ & Hcur').
    eauto.
  - destruct (nextString_in_range conf _ Hcur) as (self' & out & -> & _ & Hcur').
    eauto.
  - rewrite startRecording_run. destruct (_recording (self w)); eauto.
  - rewrite stopRecording_run. destruct (_recording (self w)); eauto.
  - destruct (copyLast_in_range sep cc copied _ Hcur) as [out ->]. eauto.
  - rewrite clearHistory_run. do 2 eexists. split; [reflexivity|].
    apply zero_cursor_in_range. reflexivity.
Qed.

Lemma reachable_cursor_in_range w :
  reachable sep conf cc w -> cursor_in_range (self w).
Proof.
  induction 1 as [|a w w' out _ IH Hstep].
  - apply init_cursor_in_range.
  - unfold perform in Hstep.
    destruct (method_cursor_in_range a w IH) as (self' & out' & Hrun & Hcur).
    rewrite Hrun in Hstep. injection Hstep as <- _. exact Hcur.
Qed.

Lemma host_run_reachable actions : forall w w',
  reachable sep conf cc w ->
  host_run sep conf cc actions w = Some w' ->
  reachable sep conf cc w'.
Proof.
  induction actions as [|a actions IH]; intros w w' Hw; cbn [host_run].
  - intros [= <-]. exact Hw.
  - destruct (perform sep conf cc a w) as [[w1 out]|] eqn:Hstep; [|discriminate].
    apply IH. exact (reachable_step sep conf cc a w w1 out Hw Hstep).
Qed.

(** Whatever the host does next, the method it calls returns. *)
Lemma reachable_perform a w :
  reachable sep conf cc w -> exists w' out, perform sep conf cc a w = Some (w', out).
Proof.
  intros Hw. unfold perform.
  destruct (method_cursor_in_range a w (reachable_cursor_in_range w Hw))
    as (self' & out & -> & _).
  eauto.
Qed.

End HostFacts.

(** ** Recording *)

Section RecordingClaims.

Variable sep : string.
Variable conf : Config.
Variable cc : CopyConfig.

Implicit Types (self : GlobalPlugin) (w : World).

(** The review scripts touch the cursor only. *)
Lemma prevString_frame self self' out :
  script_prevString conf self = Some (tt, self', out) ->
  exists pos, self' = at_pos pos self.
Proof.
  unfold script_prevString. destruct self as [h recorded recording pos].
  run_method. destruct (Deque.nonempty h); cbn.
  - destruct (pos + 1 >? Deque.len h - 1); cbn;
      rewrite ?beepHistoryBoundary_run; cbn;
      destruct (Deque.getitem h _); cbn; intros [= <- _]; eexists; reflexivity.
  - intros [= <- _]. eexists; reflexivity.
Qed.

Lemma nextString_frame self self' out :
  script_nextString conf self = Some (tt, self', out) ->
  exists pos, self' = at_pos pos self.
Proof.
  unfold script_nextString. destruct self as [h recorded recording pos].
  run_method. destruct (Deque.nonempty h); cbn.
  - destruct (pos - 1 <? 0); cbn;
      rewrite ?beepHistoryBoundary_run; cbn;
      destruct (Deque.getitem h _); cbn; intros [= <- _]; eexists; reflexivity.
  - intros [= <- _]. eexists; reflexivity.
Qed.

Lemma init_idle : idle_means_nothing_recorded (__init__ conf).
Proof. intros _. reflexivity. Qed.

Lemma append_to_history_idle seq self self' out :
  idle_means_nothing_recorded self ->
  append_to_history sep seq self = Some (tt, self', out) ->
  idle_means_nothing_recorded self'.
Proof.
  unfold idle_means_nothing_recorded. rewrite append_to_history_run.
  intros Hinv [= <- _]. cbn. intros Hidle. rewrite Hidle. auto.
Qed.

Lemma startRecording_idle self self' out :
  idle_means_nothing_recorded self ->
  script_startRecording self = Some (tt, self', out) ->
  idle_means_nothing_recorded self'.
Proof.
  unfold idle_means_nothing_recorded. rewrite startRecording_run.
  intros Hinv. destruct (_recording self) eqn:Hrec; intros [= <- _]; cbn; congruence.
Qed.

Lemma stopRecording_idle self self' out :
  idle_means_nothing_recorded self ->
  script_stopRecording self = Some (tt, self', out) ->
  idle_means_nothing_recorded self'.
Proof.
  unfold idle_means_nothing_recorded. rewrite stopRecording_run.
  intros Hinv. destruct (_recording self) eqn:Hrec; intros [= <- _]; cbn; auto.
Qed.

Lemma clearHistory_idle self self' out :
  idle_means_nothing_recorded self ->
  clearHistory self = Some (tt, self', out) ->
  idle_means_nothing_recorded self'.
Proof.
  unfold idle_means_nothing_recorded. rewrite clearHistory_run.
  intros _ [= <- _]. reflexivity.
Qed.

Lemma perform_idle a w w' out :
  idle_means_nothing_recorded (self w) ->
  perform sep conf cc a w = Some (w', out) ->
  idle_means_nothing_recorded (self w').
Proof.
  intros Hinv. unfold perform.
  destruct (method_of sep conf cc a w (self w)) as [[[[] self'] out']|] eqn:Hrun;
    [|discriminate].
  intros [= <- _]. cbn [self].
  destruct a; cbn [method_of] in Hrun.
  - rewrite mySpeak_run in Hrun. injection Hrun as <- _. exact Hinv.
  - destruct (eventQueue w) as [|sequence queue].
    + injection Hrun as <- _. exact Hinv.
    + eapply append_to_history_idle; eassumption.
  - apply prevString_frame in Hrun as [pos ->]. exact Hinv.
  - apply nextString_frame in Hrun as [pos ->]. exact Hinv.
  - eapply startRecording_idle; eassumption.
  - eapply stopRecording_idle; eassumption.
  - apply copyLast_frame in Hrun as ->. exact Hinv.
  - eapply clearHistory_idle; eassumption.
Qed.

Lemma reachable_idle w :
  reachable sep conf cc w -> idle_means_nothing_recorded (self w).
Proof.
  induction 1 as [|a w w' out _ IH Hstep].
  - apply init_idle.
  - eapply perform_idle; eassumption.
Qed.

(** C9. The list of recorded texts is empty whenever the plugin is not
    recording: this holds when the plugin is created, each of
    [append_to_history], [script_startRecording], [script_stopRecording]
    and [clearHistory] keeps it, and so it holds in every state the host
    can bring the plugin into. *)
Theorem recorded_empty_while_idle :
  idle_means_nothing_recorded (__init__ conf)
  /\ (forall seq self self' out,
        idle_means_nothing_recorded self ->
        append_to_history sep seq self = Some (tt, self', out) ->
        idle_means_nothing_recorded self')
  /\ (forall self self' out,
        idle_means_nothing_recorded self ->
        script_startRecording self = Some (tt, self', out) ->
        idle_means_nothing_recorded self')
  /\ (forall self self' out,
        idle_means_nothing_recorded self ->
        script_stopRecording self = Some (tt, self', out) ->
        idle_means_nothing_recorded self')
  /\ (forall self self' out,
        idle_means_nothing_recorded self ->
        clearHistory self = Some (tt, self', out) ->
        idle_means_nothing_recorded self')
  /\ (forall w, reachable sep conf cc w ->
        _recording (self w) = false -> _recorded (self w) = []).
Proof.
  split; [apply init_idle|].
  split; [apply append_to_history_idle|].
  split; [apply startRecording_idle|].
  split; [apply stopRecording_idle|].
  split; [apply clearHistory_idle|].
  intros w Hw. exact (reachable_idle w Hw).
Qed.

Lemma truthy_app_LF a b : Py.truthy (a +:+ LF +:+ b) = true.
Proof. destruct a; reflexivity. Qed.

(** C4. From a state of the plugin in which it is not recording:
    [script_startRecording], three pushes, [script_stopRecording] copy to
    the clipboard the texts of the three pushed sequences, in the order
    of the pushes, joined by line feeds, and leave the list of recorded
    texts empty. (This holds whatever the three texts are, non-empty ones
    included.) *)
Theorem recording_three_pushes w seq1 seq2 seq3 :
  reachable sep conf cc w ->
  _recording (self w) = false ->
  exists self',
    (script_startRecording;;
     append_to_history sep seq1;;
     append_to_history sep seq2;;
     append_to_history sep seq3;;
     script_stopRecording) (self w)
    = Some (tt, self',
            [Speak [Str "Started recording speech"];
             CopyToClip (getSequenceText sep seq1 +:+ LF +:+
                         getSequenceText sep seq2 +:+ LF +:+
                         getSequenceText sep seq3);
             Speak [Str "Recorded speech copied to clipboard"]])
    /\ Py.join LF [getSequenceText sep seq1; getSequenceText sep seq2;
                   getSequenceText sep seq3]
       = getSequenceText sep seq1 +:+ LF +:+
         getSequenceText sep seq2 +:+ LF +:+ getSequenceText sep seq3
    /\ _recorded self' = []
    /\ _recording self' = false.
Proof.
  intros Hw Hidle. pose proof (reachable_idle w Hw Hidle) as Hnone.
  destruct (self w) as [h recorded recording pos]. cbn in Hidle, Hnone. subst.
  eexists. split; [|split; [reflexivity|]].
  - unfold mbind, M_bind.
    rewrite startRecording_run. cbn.
    rewrite !append_to_history_run. cbn.
    rewrite stopRecording_run. cbn.
    change (Py.join LF [getSequenceText sep seq1; getSequenceText sep seq2;
                        getSequenceText sep seq3])
      with (getSequenceText sep seq1 +:+ LF +:+
            getSequenceText sep seq2 +:+ LF +:+ getSequenceText sep seq3).
    rewrite truthy_app_LF. reflexivity.
  - split; reflexivity.
Qed.

(** C5. In every state the host can bring the plugin into:
    when the plugin is not recording, [script_startRecording] announces
    the start and switches to recording with an empty list of recorded
    texts, so that the recorded texts are from then on exactly the texts
    of the sequences pushed after the start; when the plugin is recording
    already, [script_startRecording] changes nothing and announces
    "Already recording speech". *)
Theorem startRecording_transition w :
  reachable sep conf cc w ->
  (_recording (self w) = false ->
     script_startRecording (self w)
     = Some (tt, set_recording true (self w),
             [Speak [Str "Started recording speech"]])
     /\ _recording (set_recording true (self w)) = true
     /\ _recorded (set_recording true (self w)) = []
     /\ forall seqs, exists self',
          (script_startRecording;; push_all sep seqs) (self w)
          = Some (tt, self', [Speak [Str "Started recording speech"]])
          /\ _recording self' = true
          /\ _recorded self' = map (getSequenceText sep) seqs)
  /\ (_recording (self w) = true ->
        script_startRecording (self w)
        = Some (tt, self w, [Speak [Str "Already recording speech"]])).
Proof.
  intros Hw. split; intros Hrec.
  - pose proof (reachable_idle w Hw Hrec) as Hnone.
    rewrite startRecording_run, Hrec.
    split; [reflexivity|]. split; [reflexivity|]. split; [exact Hnone|].
    intros seqs. eexists. split; [|split].
    + unfold mbind, M_bind. rewrite startRecording_run, Hrec.
      rewrite push_all_run. reflexivity.
    + destruct seqs; reflexivity.
    + destruct seqs as [|seq seqs]; cbn; rewrite Hnone; reflexivity.
  - rewrite startRecording_run, Hrec. reflexivity.
Qed.

End RecordingClaims.

(** ** Interception of speech *)

Section StripFacts.

Variable p : ascii -> bool.

Lemma lstrip_by_empty s : Py.lstrip_by p s = EmptyString <-> all_chars p s = true.
Proof.
  induction s as [|c s IH]; cbn; [tauto|].
  destruct (p c); cbn; [exact IH|]. split; discriminate.
Qed.

Lemma rstrip_by_empty s : Py.rstrip_by p s = EmptyString <-> all_chars p s = true.
Proof.
  induction s as [|c s IH]; cbn; [tauto|].
  destruct (Py.rstrip_by p s) as [|c' r].
  - rewrite (proj1 IH eq_refl). destruct (p c); cbn; split; auto; discriminate.
  - split; [discriminate|]. intros Hall. apply andb_prop in Hall as [_ Hall].
    apply IH in Hall. discriminate.
Qed.

Lemma rstrip_by_all s :
  all_chars p (Py.rstrip_by p s) = true -> Py.rstrip_by p s = EmptyString.
Proof.
  induction s as [|c s IH]; cbn; [reflexivity|].
  destruct (Py.rstrip_by p s) as [|c' r].
  - destruct (p c) eqn:Hc; cbn; [reflexivity|]. rewrite Hc. discriminate.
  - cbn. intros Hall. apply andb_prop in Hall as [_ Hall].
    specialize (IH Hall). discriminate.
Qed.

End StripFacts.

(** [text.strip()] is empty exactly for a text of whitespace only. *)
Lemma strip_truthy s : Py.truthy (Py.strip s) = negb (whitespace_only s).
Proof.
  unfold whitespace_only, Py.strip, Py.lstrip, Py.rstrip.
  destruct (all_chars Py.isspace s) eqn:Hall.
  - apply rstrip_by_empty in Hall. rewrite Hall. reflexivity.
  - destruct (Py.lstrip_by Py.isspace (Py.rstrip_by Py.isspace s)) eqn:Hstrip;
      [|reflexivity].
    apply lstrip_by_empty, rstrip_by_all, rstrip_by_empty in Hstrip. congruence.
Qed.

(** C10. When the [str] fragments of an intercepted sequence join to an
    empty text or to a text of whitespace only, [mySpeak] passes the
    sequence on to the host's speak function and does nothing else: the
    history, the cursor and the recorded texts are as before, and no call
    of [append_to_history] is queued, so the sequence never enters the
    history. *)
Theorem blank_speech_not_recorded (sep : string) (conf : Config)
    (cc : CopyConfig) (sequence : SpeechSequence) :
  whitespace_only (getSequenceText sep sequence) = true ->
  (forall self, mySpeak sep sequence self = Some (tt, self, [Speak sequence]))
  /\ (forall w, perform sep conf cc (HostSpeaks sequence) w = Some (w, [Speak sequence])).
Proof.
  intros Hblank.
  assert (Hrun : forall self, mySpeak sep sequence self = Some (tt, self, [Speak sequence])).
  { intros self. rewrite mySpeak_run, strip_truthy, Hblank. reflexivity. }
  split; [exact Hrun|].
  intros [self0 queue]. unfold perform. cbn [method_of self eventQueue].
  rewrite Hrun. cbn. rewrite app_nil_r. reflexivity.
Qed.

(** ** The search of the dialog *)

Section SearchFacts.

Import Dialog.

Implicit Types (d : HistoryDialog) (text value item : string).


Lemma contains_unfold sub s :
  Py.contains sub s =
  if Py.startswith sub s then true
  else match s with
       | EmptyString => false
       | String _ s' => Py.contains sub s'
       end.
Proof. destruct s; reflexivity. Qed.


Lemma matching_empty snapshot : matching EmptyString snapshot = snapshot.
Proof.
  unfold matching. induction snapshot as [|item snapshot IH]; cbn; [reflexivity|].
  rewrite contains_unfold. cbn. congruence.
Qed.






Lemma doSearch_view text d :
  searchHistory (doSearch text d) = matching text (history d).
Proof.
  unfold doSearch. cbn [searchHistory].
  destruct text; cbn [Py.truthy negb]; [|reflexivity].
  symmetry. apply matching_empty.
Qed.

Lemma fold_Append_focus items c :
  focusedItem (fold_left (fun c item => Append (first100 item) c) items c)
  = focusedItem c.
Proof. revert c. induction items as [|item items IH]; intros c; cbn; [reflexivity|]. rewrite IH. reflexivity. Qed.

Lemma doSearch_focus text d :
  focusedItem (historyList (doSearch text d)) =
  match matching text (history d) with
  | [] => -1
  | view =>
      let index := default 0 (searches d !! text) in
      Z.max (if index >=? Z.of_nat (length view)
             then Z.of_nat (length view) - 1 else index) 0
  end.
Proof.
  pose proof (doSearch_view text d) as Hview. unfold doSearch in *.
  cbn [searchHistory historyList] in *. rewrite Hview.
  destruct (matching text (history d)); [|reflexivity].
  cbn. reflexivity.
Qed.

Lemma onSearch_other value d :
  Py.lower value <> curSearch d ->
  onSearch value d =
  doSearch (Py.lower value)
    {| history := history d; searchHistory := searchHistory d;
       searches := <[curSearch d := Z.max 0 (focusedItem (historyList d))]> (searches d);
       curSearch := Py.lower value;
       historyList := historyList d |}.
Proof.
  intros Hne. unfold onSearch. cbv zeta.
  rewrite (proj2 (String.eqb_neq _ _) Hne). unfold GetFocusedItem.
  replace (if focusedItem (historyList d) <? 0 then 0 else focusedItem (historyList d))
    with (Z.max 0 (focusedItem (historyList d))); [reflexivity|].
  destruct (Z.ltb_spec (focusedItem (historyList d)) 0); lia.
Qed.

Lemma onSearch_same value d :
  Py.lower value = curSearch d -> onSearch value d = d.
Proof.
  intros Heq. unfold onSearch. cbv zeta. rewrite Heq, String.eqb_refl. reflexivity.
Qed.

Lemma userFocuses_frame index d :
  history (userFocuses index d) = history d
  /\ searchHistory (userFocuses index d) = searchHistory d
  /\ searches (userFocuses index d) = searches d
  /\ curSearch (userFocuses index d) = curSearch d.
Proof. unfold userFocuses. destruct (_ && _); repeat split. Qed.

Lemma clamp_index index len :
  0 <= index -> 1 <= len ->
  Z.max (if index >=? len then len - 1 else index) 0 = Z.min index (len - 1).
Proof. intros Hi Hlen. destruct (Z.geb_spec index len); lia. Qed.

End SearchFacts.

Section SearchClaims.

Import Dialog.

Variable sep : string.

Implicit Types (d : HistoryDialog) (text value item : string).

Lemma doSearch_in_sync d :
  view_in_sync (doSearch (curSearch d) d).
Proof. unfold view_in_sync. rewrite doSearch_view. reflexivity. Qed.

Lemma init_in_sync addon : view_in_sync (Dialog.__init__ sep addon).
Proof. unfold view_in_sync, Dialog.__init__, updateHistory. rewrite doSearch_view. reflexivity. Qed.

Lemma updateHistory_in_sync addon d : view_in_sync (updateHistory sep addon d).
Proof. unfold view_in_sync, updateHistory. rewrite doSearch_view. reflexivity. Qed.

Lemma userFocuses_in_sync index d :
  view_in_sync d -> view_in_sync (userFocuses index d).
Proof.
  unfold view_in_sync. destruct (userFocuses_frame index d) as (-> & -> & _ & ->).
  auto.
Qed.



Lemma onSearch_focus value d :
  Py.lower value <> curSearch d ->
  let d' := onSearch value d in
  let remembered := default 0 (searches d !! Py.lower value) in
  let size := Z.of_nat (length (searchHistory d')) in
  (searchHistory d' = [] -> focusedItem (historyList d') = -1)
  /\ (searchHistory d' <> [] ->
      focusedItem (historyList d')
      = Z.max (if remembered >=? size then size - 1 else remembered) 0)
  /\ searches d' !! curSearch d = Some (Z.max 0 (focusedItem (historyList d))).
Proof.
  intros Hne. cbv zeta. rewrite (onSearch_other _ _ Hne).
  rewrite doSearch_focus, doSearch_view. cbn [history searches].
  rewrite lookup_insert_ne by congruence.
  destruct (matching (Py.lower value) (history d)) as [|item view] eqn:Hview.
  - split; [reflexivity|]. split; [congruence|]. cbn. apply lookup_insert_eq.
  - split; [discriminate|]. split; [reflexivity|]. cbn. apply lookup_insert_eq.
Qed.

(** C7. When the search field is set to a query other than the current
    one, the row that gets the focus is the one remembered for the new
    query, lowered to the last row when the list has fewer rows, and row 0
    when the query was never left before; no row gets the focus when the
    list is empty; and the focused row of the query being left is
    remembered. Hence leaving a query and coming back to it, after a refresh
    of the history and moves of the focus in between, puts the focus back on
    the row it was on, or on the last row of a list that has become
    shorter. *)
Theorem focus_restored_for_query :
  (forall value d,
      Py.lower value <> curSearch d ->
      let d' := onSearch value d in
      let size := Z.of_nat (length (searchHistory d')) in
      (searchHistory d' = [] -> focusedItem (historyList d') = -1)
      /\ (forall remembered,
            searchHistory d' <> [] ->
            searches d !! Py.lower value = Some remembered ->
            0 <= remembered ->
            focusedItem (historyList d') = Z.min remembered (size - 1))
      /\ (searchHistory d' <> [] ->
          searches d !! Py.lower value = None ->
          focusedItem (historyList d') = 0)
      /\ searches d' !! curSearch d = Some (Z.max 0 (focusedItem (historyList d))))
  /\ (forall value other addon index d,
        Py.lower value = curSearch d ->
        Py.lower other <> curSearch d ->
        let left_at := Z.max 0 (focusedItem (historyList d)) in
        let d1 := onSearch other d in
        let d2 := userFocuses index (updateHistory sep addon d1) in
        let d3 := onSearch value d2 in
        let size := Z.of_nat (length (searchHistory d3)) in
        (searchHistory d3 = [] -> focusedItem (historyList d3) = -1)
        /\ (searchHistory d3 <> [] ->
            focusedItem (historyList d3) = Z.min left_at (size - 1))).
Proof.
  assert (Hsize : forall view : list string, view <> [] -> 1 <= Z.of_nat (length view)).
  { intros [|item view] Hview; [congruence|]. cbn [length]. lia. }
  split.
  - intros value d Hne. cbv zeta.
    destruct (onSearch_focus value d Hne) as (Hempty & Hfocus & Hleft).
    split; [exact Hempty|]. split; [|split; [|exact Hleft]].
    + intros remembered Hview Hrem Hpos. rewrite (Hfocus Hview), Hrem. cbn [default].
      apply clamp_index; auto.
    + intros Hview Hrem. rewrite (Hfocus Hview), Hrem. cbn [default].
      rewrite clamp_index by (auto; lia). specialize (Hsize _ Hview). lia.
  - intros value other addon index d Hvalue Hother. cbv zeta.
    set (d1 := onSearch other d).
    set (d2 := userFocuses index (updateHistory sep addon d1)).
    assert (Hcur2 : curSearch d2 = Py.lower other).
    { unfold d2. destruct (userFocuses_frame index (updateHistory sep addon d1))
        as (_ & _ & _ & ->).
      unfold d1. rewrite (onSearch_other _ _ Hother). reflexivity. }
    assert (Hsearches2 : searches d2 !! curSearch d
                         = Some (Z.max 0 (focusedItem (historyList d)))).
    { unfold d2. destruct (userFocuses_frame index (updateHistory sep addon d1))
        as (_ & _ & -> & _).
      change (searches (updateHistory sep addon d1)) with (searches d1).
      destruct (onSearch_focus other d Hother) as (_ & _ & Hleft). exact Hleft. }
    assert (Hne : Py.lower value <> curSearch d2) by congruence.
    destruct (onSearch_focus value d2 Hne) as (Hempty & Hfocus & _).
    split; [exact Hempty|].
    intros Hview. rewrite (Hfocus Hview), Hvalue, Hsearches2. cbn [default].
    apply clamp_index; [lia|auto].
Qed.

End SearchClaims.

(** * The statements at sample values *)

Lemma history_holds_most_recent_witness :
  (MIN_HISTORY_ENTRIES <= maxHistoryLength sample_conf)%nat
  /\ exists self',
       push_all "  " sample_sequences (__init__ sample_conf) = Some (tt, self', [])
       /\ Deque.items (_history self')
          = [[OtherCommand 7; Str "three"]; [Str "two"; Str "2"]].
Proof.
  assert (Hcap : (MIN_HISTORY_ENTRIES <= maxHistoryLength sample_conf)%nat)
    by (vm_compute; lia).
  split; [exact Hcap|].
  destruct (history_holds_most_recent "  " sample_conf sample_sequences Hcap)
    as (_ & self' & Hrun & _ & Hitems & _).
  exists self'. split; [exact Hrun|exact Hitems].
Defined.

Lemma moveBack_reaches_oldest_witness :
  (1 <= length (Deque.items (_history sample_plugin)))%nat
  /\ history_pos sample_plugin = 0
  /\ times 2 (script_prevString sample_conf) sample_plugin
     = Some (tt, at_pos 2 sample_plugin, [Speak [Str "two"]; Speak [Str "one"]]).
Proof.
  assert (Hsize : (1 <= length (Deque.items (_history sample_plugin)))%nat)
    by (vm_compute; lia).
  split; [exact Hsize|]. split; [reflexivity|].
  destruct (moveBack_reaches_oldest sample_conf sample_plugin Hsize eq_refl)
    as [Hwalk _].
  apply (Hwalk 2%nat). vm_compute. lia.
Defined.

Lemma boundary_move_beeps_and_repeats_witness :
  let self := at_pos 2 sample_plugin in
  Deque.nonempty (_history self) = true
  /\ cursor_in_range self
  /\ exists entry,
       Deque.getitem (_history self) (history_pos self) = Some entry
       /\ (history_pos self + 1 > Deque.len (_history self) - 1 ->
           script_prevString sample_conf self
           = Some (tt, self, [boundary_beep sample_conf false; Speak entry]))
       /\ (history_pos self - 1 < 0 ->
           script_nextString sample_conf self
           = Some (tt, self, [boundary_beep sample_conf true; Speak entry]))
       /\ (boundary_beep sample_conf false <> boundary_beep sample_conf true
           <-> beepBoundaryPanning sample_conf = true).
Proof.
  cbv zeta.
  assert (Hne : Deque.nonempty (_history (at_pos 2 sample_plugin)) = true)
    by reflexivity.
  assert (Hcur : cursor_in_range (at_pos 2 sample_plugin)).
  { split; [vm_compute; discriminate|]. left. vm_compute. reflexivity. }
  split; [exact Hne|]. split; [exact Hcur|].
  exact (boundary_move_beeps_and_repeats sample_conf (at_pos 2 sample_plugin) Hne Hcur).
Defined.

Lemma recording_three_pushes_witness :
  let w := {| self := __init__ sample_conf; eventQueue := [] |} in
  reachable "  " sample_conf sample_copyConf w
  /\ _recording (self w) = false
  /\ exists self',
       (script_startRecording;;
        append_to_history "  " [Str "one"];;
        append_to_history "  " [Str "two"; FocusLossCancellableSpeechCommand; Str "2"];;
        append_to_history "  " [OtherCommand 7; Str "three"];;
        script_stopRecording) (self w)
       = Some (tt, self',
               [Speak [Str "Started recording speech"];
                CopyToClip ("one" +:+ LF +:+ "two  2" +:+ LF +:+ "three");
                Speak [Str "Recorded speech copied to clipboard"]])
       /\ _recorded self' = [].
Proof.
  cbv zeta.
  assert (Hw : reachable "  " sample_conf sample_copyConf
                 {| self := __init__ sample_conf; eventQueue := [] |})
    by apply reachable_init.
  split; [exact Hw|]. split; [reflexivity|].
  destruct (recording_three_pushes "  " sample_conf sample_copyConf _
              [Str "one"]
              [Str "two"; FocusLossCancellableSpeechCommand; Str "2"]
              [OtherCommand 7; Str "three"] Hw eq_refl)
    as (self' & Hrun & _ & Hrecorded & _).
  exists self'. split; [exact Hrun|exact Hrecorded].
Defined.

Lemma startRecording_transition_witness :
  let w := {| self := __init__ sample_conf; eventQueue := [] |} in
  reachable "  " sample_conf sample_copyConf w
  /\ script_startRecording (self w)
     = Some (tt, set_recording true (self w), [Speak [Str "Started recording speech"]]).
Proof.
  cbv zeta.
  assert (Hw : reachable "  " sample_conf sample_copyConf
                 {| self := __init__ sample_conf; eventQueue := [] |})
    by apply reachable_init.
  split; [exact Hw|].
  destruct (startRecording_transition "  " sample_conf sample_copyConf _ Hw) as [Hidle _].
  destruct (Hidle eq_refl) as [Hrun _]. exact Hrun.
Defined.


Lemma focus_restored_for_query_witness :
  let d := Dialog.userFocuses 1 (Dialog.onSearch "O" sample_dialog) in
  let shrunk := {| _history := Deque.mk [[Str "two"]] 500; _recorded := [];
                   _recording := false; history_pos := 0 |} in
  let revisit addon :=
    Dialog.onSearch "O"
      (Dialog.userFocuses 0
         (Dialog.updateHistory "  " addon (Dialog.onSearch "T" d))) in
  Py.lower "O" = Dialog.curSearch d
  /\ Py.lower "T" <> Dialog.curSearch d
  /\ Dialog.searchHistory d = ["two"; "one"]
  /\ Dialog.focusedItem (Dialog.historyList d) = 1
  /\ Dialog.focusedItem (Dialog.historyList (Dialog.onSearch "T" d)) = 0
  /\ Dialog.searchHistory (revisit sample_plugin) = ["two"; "one"]
  /\ Dialog.focusedItem (Dialog.historyList (revisit sample_plugin)) = 1
  /\ Dialog.searchHistory (revisit shrunk) = ["two"]
  /\ Dialog.focusedItem (Dialog.historyList (revisit shrunk)) = 0.
Proof.
  cbv zeta.
  set (d := Dialog.userFocuses 1 (Dialog.onSearch "O" sample_dialog)).
  set (shrunk := {| _history := Deque.mk [[Str "two"]] 500; _recorded := [];
                    _recording := false; history_pos := 0 |}).
  assert (Hvalue : Py.lower "O" = Dialog.curSearch d) by reflexivity.
  assert (Hother : Py.lower "T" <> Dialog.curSearch d) by (vm_compute; discriminate).
  destruct focus_restored_for_query with (sep := "  ") as [Hrule Hrevisit].
  destruct (Hrule "T" d Hother) as (_ & _ & Hfresh & _).
  destruct (Hrevisit "O" "T" sample_plugin 0 d Hvalue Hother) as [_ Hsame].
  destruct (Hrevisit "O" "T" shrunk 0 d Hvalue Hother) as [_ Hless].
  split; [exact Hvalue|]. split; [exact Hother|].
  split; [reflexivity|]. split; [reflexivity|].
  split; [apply Hfresh; [vm_compute; discriminate|reflexivity]|].
  split; [reflexivity|].
  split; [rewrite Hsame; [reflexivity|vm_compute; discriminate]|].
  split; [reflexivity|].
  rewrite Hless; [reflexivity|vm_compute; discriminate].
Defined.

Lemma recorded_empty_while_idle_witness :
  host_run "  " sample_conf sample_copyConf sample_session sample_world
  = Some busy_world
  /\ host_run "  " sample_conf sample_copyConf sample_session_end busy_world
     = Some idle_world
  /\ reachable "  " sample_conf sample_copyConf idle_world
  /\ _recording (self idle_world) = false
  /\ _recorded (self idle_world) = [].
Proof.
  assert (Hbusy : host_run "  " sample_conf sample_copyConf sample_session sample_world
                  = Some busy_world) by reflexivity.
  assert (Hidle : host_run "  " sample_conf sample_copyConf sample_session_end busy_world
                  = Some idle_world) by reflexivity.
  assert (Hw : reachable "  " sample_conf sample_copyConf idle_world).
  { apply (host_run_reachable _ _ _ _ _ _ (reachable_init _ _ _)) in Hbusy.
    exact (host_run_reachable _ _ _ _ _ _ Hbusy Hidle). }
  split; [exact Hbusy|]. split; [exact Hidle|]. split; [exact Hw|].
  split; [reflexivity|].
  destruct (recorded_empty_while_idle "  " sample_conf sample_copyConf)
    as (_ & _ & _ & _ & _ & Hall).
  exact (Hall _ Hw eq_refl).
Defined.

Lemma blank_speech_not_recorded_witness :
  let sequence := [Str (String "160" " "); OtherCommand 3;
                   Str (String "133" (String "009" ""))] in
  let w := {| self := sample_plugin; eventQueue := [[Str "pending"]] |} in
  whitespace_only (getSequenceText "  " sequence) = true
  /\ mySpeak "  " sequence sample_plugin = Some (tt, sample_plugin, [Speak sequence])
  /\ perform "  " sample_conf sample_copyConf (HostSpeaks sequence) w
     = Some (w, [Speak sequence]).
Proof.
  cbv zeta.
  assert (Hblank : whitespace_only
                     (getSequenceText "  "
                        [Str (String "160" " "); OtherCommand 3;
                         Str (String "133" (String "009" ""))]) = true)
    by (vm_compute; reflexivity).
  split; [exact Hblank|].
  destruct (blank_speech_not_recorded "  " sample_conf sample_copyConf _ Hblank)
    as [Hrun Hworld].
  split; [apply Hrun|apply Hworld].
Defined.

(** * Further properties of the module *)

(** ** Versions *)

Section VersionOrder.

Lemma findall_digits_from_rstrip s : forall run,
  Py.findall_digits_from run (Py.rstrip s) = Py.findall_digits_from run s.
Proof.
  unfold Py.rstrip. induction s as [|c s IH]; intros run; [reflexivity|].
  cbn [Py.rstrip_by]. destruct (Py.rstrip_by Py.isspace s) as [|c' r] eqn:Hr.
  - destruct (Py.isspace c) eqn:Hc.
    + cbn. rewrite (isspace_not_digit c Hc), <- IH. cbn.
      rewrite app_nil_r. reflexivity.
    + cbn. destruct (Py.isdigit c); rewrite <- IH; reflexivity.
  - cbn [Py.findall_digits_from]. destruct (Py.isdigit c); rewrite <- IH; reflexivity.
Qed.

Lemma versionToTuple_digit_fields version :
  _versionToTuple version =
  match digit_fields version with
  | [] => [0%N]
  | parts => parts
  end.
Proof.
  rewrite versionToTuple_runs. unfold digit_fields, Py.findall_digits.
  rewrite findall_digits_from_rstrip. reflexivity.
Qed.

Lemma isVersionNewer_fields current latest :
  _isVersionNewer current latest = true <->
  exists i,
    (forall j, (j < i)%nat -> version_field latest j = version_field current j)
    /\ (version_field current i < version_field latest i)%N.
Proof.
  unfold _isVersionNewer, version_field. cbv zeta.
  rewrite tuple_gt_fields.
  - split; intros [i [Hpre Hi]]; exists i; rewrite !nth_pad_zero in *;
      (split; [|exact Hi]); intros j Hj; specialize (Hpre j Hj);
      rewrite !nth_pad_zero in *; exact Hpre.
  - rewrite !length_app, !length_tuple_mul_one. lia.
Qed.

Lemma isVersionNewer_not_fields current latest :
  _isVersionNewer current latest = false ->
  _isVersionNewer latest current = false ->
  forall i, version_field current i = version_field latest i.
Proof.
  intros Hab Hba i. induction i as [i IH] using lt_wf_ind.
  destruct (N.lt_trichotomy (version_field current i) (version_field latest i))
    as [Hlt|[Heq|Hgt]]; [|exact Heq|].
  - assert (_isVersionNewer current latest = true); [|congruence].
    apply isVersionNewer_fields. exists i. split; [|exact Hlt].
    intros j Hj. symmetry. apply IH. exact Hj.
  - assert (_isVersionNewer latest current = true); [|congruence].
    apply isVersionNewer_fields. exists i. split; [|exact Hgt].
    intros j Hj. apply IH. exact Hj.
Qed.

Lemma isVersionNewer_same_fields a a' b :
  (forall i, version_field a i = version_field a' i) ->
  _isVersionNewer a b = _isVersionNewer a' b
  /\ _isVersionNewer b a = _isVersionNewer b a'.
Proof.
  intros Hsame.
  assert (Hiff : forall x y x' y',
             (forall i, version_field x i = version_field x' i) ->
             (forall i, version_field y i = version_field y' i) ->
             _isVersionNewer x y = true -> _isVersionNewer x' y' = true).
  { intros x y x' y' Hx Hy. rewrite !isVersionNewer_fields.
    intros [i [Hpre Hi]]. exists i. split.
    - intros j Hj. rewrite <- Hx, <- Hy. apply Hpre. exact Hj.
    - rewrite <- Hx, <- Hy. exact Hi. }
  split.
  - destruct (_isVersionNewer a b) eqn:Hab, (_isVersionNewer a' b) eqn:Hab';
      try reflexivity.
    + rewrite (Hiff a b a' b) in Hab'; auto.
    + rewrite (Hiff a' b a b) in Hab; auto.
  - destruct (_isVersionNewer b a) eqn:Hba, (_isVersionNewer b a') eqn:Hba';
      try reflexivity.
    + rewrite (Hiff b a b a') in Hba'; auto.
    + rewrite (Hiff b a' b a) in Hba; auto.
Qed.

End VersionOrder.

(** X1. Only the digits of a version string count: its tuple is made of the
    maximal runs of digits of the whole string, read as integers, whatever
    stands around them (whitespace, a prefix such as ["v"], letters, signs,
    separators), and it is [(0,)] for a string without a digit; so the tuple
    is never empty. *)
Theorem versionToTuple_digits_only (version : string) :
  _versionToTuple version
  = (match digit_fields version with [] => [0%N] | parts => parts end)
  /\ _versionToTuple version <> []
  /\ (digit_fields version = [] -> _versionToTuple version = [0%N]).
Proof.
  rewrite versionToTuple_digit_fields.
  destruct (digit_fields version); repeat split; congruence.
Qed.

(** X2. "Newer" is a strict order on versions: no version is newer than
    itself, two versions are never each newer than the other, and a version
    newer than one that is newer than a third is newer than the third. *)
Theorem isVersionNewer_strict_order :
  (forall v, _isVersionNewer v v = false)
  /\ (forall a b, _isVersionNewer a b = true -> _isVersionNewer b a = false)
  /\ (forall a b c,
        _isVersionNewer a b = true -> _isVersionNewer b c = true ->
        _isVersionNewer a c = true).
Proof.
  assert (Hirr : forall v, _isVersionNewer v v = false).
  { intros v. destruct (_isVersionNewer v v) eqn:Hv; [|reflexivity].
    apply isVersionNewer_fields in Hv as [i [_ Hi]]. lia. }
  assert (Htrans : forall a b c,
        _isVersionNewer a b = true -> _isVersionNewer b c = true ->
        _isVersionNewer a c = true).
  { intros a b c. rewrite !isVersionNewer_fields.
    intros [i [Hpre Hi]] [k [Hpre' Hk]].
    destruct (Nat.lt_trichotomy i k) as [Hlt|[->|Hgt]].
    - exists i. split.
      + intros j Hj. rewrite Hpre' by lia. apply Hpre. exact Hj.
      + rewrite Hpre' by exact Hlt. exact Hi.
    - exists k. split.
      + intros j Hj. rewrite Hpre' by exact Hj. apply Hpre. exact Hj.
      + lia.
    - exists k. split.
      + intros j Hj. rewrite Hpre' by exact Hj. apply Hpre. lia.
      + rewrite <- Hpre by exact Hgt. exact Hk. }
  split; [exact Hirr|]. split; [|exact Htrans].
  intros a b Hab. destruct (_isVersionNewer b a) eqn:Hba; [|reflexivity].
  rewrite <- (Hirr a). symmetry. exact (Htrans a b a Hab Hba).
Qed.

(** X3. Two versions of which none is newer than the other are the same
    version: they have the same fields, missing trailing fields counting
    as 0; and two versions with the same fields are never told apart. *)
Theorem isVersionNewer_neither_means_same (a b : string) :
  (_isVersionNewer a b = false /\ _isVersionNewer b a = false)
  <-> (forall i, version_field a i = version_field b i).
Proof.
  split.
  - intros [Hab Hba]. apply isVersionNewer_not_fields; assumption.
  - intros Hsame.
    assert (Hno : forall x y, (forall i, version_field x i = version_field y i) ->
                              _isVersionNewer x y = false).
    { intros x y Hxy. destruct (_isVersionNewer x y) eqn:H; [|reflexivity].
      apply isVersionNewer_fields in H as [i [_ Hi]]. rewrite Hxy in Hi. lia. }
    split; apply Hno; [exact Hsame|]. intros i. symmetry. apply Hsame.
Qed.

Section VersionSuffix.

Lemma findall_digits_from_dot_zero s : forall run,
  Py.findall_digits_from run (s +:+ ".0") = Py.findall_digits_from run s ++ ["0"].
Proof.
  induction s as [|c s IH]; intros run.
  - change (EmptyString +:+ ".0") with ".0". cbn.
    destruct run; reflexivity.
  - change (String c s +:+ ".0") with (String c (s +:+ ".0")).
    cbn [Py.findall_digits_from]. destruct (Py.isdigit c).
    + apply IH.
    + rewrite IH, app_assoc. reflexivity.
Qed.

Lemma version_field_dot_zero version i :
  version_field (version +:+ ".0") i = version_field version i.
Proof.
  unfold version_field. rewrite !versionToTuple_digit_fields.
  unfold digit_fields, Py.findall_digits.
  rewrite findall_digits_from_dot_zero, map_app.
  change (map Py.int ["0"]) with (Py.tuple_mul [0%N] 1).
  destruct (map Py.int (Py.findall_digits_from EmptyString version)) as [|x parts] eqn:Hparts.
  - reflexivity.
  - change ((x :: parts) ++ Py.tuple_mul [0%N] 1)
      with (x :: (parts ++ Py.tuple_mul [0%N] 1)).
    rewrite <- (nth_pad_zero (x :: parts) 1 i). reflexivity.
Qed.

Lemma version_field_zero i : version_field "0" i = 0%N.
Proof. destruct i as [|[|i]]; reflexivity. Qed.

Lemma version_field_no_digits version i :
  digit_fields version = [] -> version_field version i = 0%N.
Proof.
  intros Hnone. unfold version_field.
  rewrite versionToTuple_digit_fields, Hnone. destruct i as [|[|i]]; reflexivity.
Qed.

Lemma fields_below_zero_or_not version i :
  (forall j, (j < i)%nat -> version_field version j = 0%N)
  \/ (exists j, (j < i)%nat /\ (0 < version_field version j)%N).
Proof.
  induction i as [|i [Hall|[j [Hj Hpos]]]].
  - left. intros j Hj. lia.
  - destruct (N.eq_dec (version_field version i) 0%N) as [Hzero|Hpos].
    + left. intros j Hj. destruct (Nat.eq_dec j i) as [->|Hne]; [exact Hzero|].
      apply Hall. lia.
    + right. exists i. split; lia.
  - right. exists j. split; [lia|exact Hpos].
Qed.

End VersionSuffix.

(** X4. A trailing [.0] field does not matter: a version string and the same
    string followed by [".0"] compare alike with every other version, on
    either side of the comparison. *)
Theorem isVersionNewer_trailing_zero (a b : string) :
  _isVersionNewer (a +:+ ".0") b = _isVersionNewer a b
  /\ _isVersionNewer b (a +:+ ".0") = _isVersionNewer b a.
Proof.
  apply isVersionNewer_same_fields. intros i. apply version_field_dot_zero.
Qed.

(** X5. When the version of the running add-on is unknown, it is taken to be
    ["0"] (or has no digit at all): then a release is newer exactly when one
    of its fields is not 0, and the running add-on is never newer than the
    release. *)
Theorem isVersionNewer_from_unknown (current latest : string) :
  current = "0" \/ digit_fields current = [] ->
  (_isVersionNewer current latest = true
   <-> exists i, (0 < version_field latest i)%N)
  /\ _isVersionNewer latest current = false.
Proof.
  intros Hcur.
  assert (Hzero : forall i, version_field current i = 0%N).
  { intros i. destruct Hcur as [->|Hnone];
      [apply version_field_zero|apply version_field_no_digits; exact Hnone]. }
  split.
  - rewrite isVersionNewer_fields. split.
    + intros [i [_ Hi]]. exists i. rewrite Hzero in Hi. exact Hi.
    + intros [i Hi]. induction i as [i IH] using lt_wf_ind.
      destruct (fields_below_zero_or_not latest i) as [Hall|[j [Hj Hpos]]].
      * exists i. split; [|rewrite Hzero; exact Hi].
        intros j Hj. rewrite Hzero. apply Hall. exact Hj.
      * apply (IH j Hj Hpos).
  - destruct (_isVersionNewer latest current) eqn:Hnew; [|reflexivity].
    apply isVersionNewer_fields in Hnew as [i [_ Hi]]. rewrite Hzero in Hi. lia.
Qed.

(** ** The plugin: review, copying, clearing, recording *)

Section TrimFacts.

Lemma lstrip_split s :
  exists pre, s = pre +:+ Py.lstrip s /\ whitespace_only pre = true.
Proof.
  unfold Py.lstrip, whitespace_only. induction s as [|c s [pre [Hs Hpre]]]; cbn.
  - exists EmptyString. split; reflexivity.
  - destruct (Py.isspace c) eqn:Hc.
    + exists (String c pre). split.
      * change (String c pre +:+ Py.lstrip_by Py.isspace s)
          with (String c (pre +:+ Py.lstrip_by Py.isspace s)).
        rewrite <- Hs. reflexivity.
      * cbn. rewrite Hc. exact Hpre.
    + exists EmptyString. split; reflexivity.
Qed.

Lemma lstrip_no_leading s : starts_with_space (Py.lstrip s) = false.
Proof.
  unfold Py.lstrip. induction s as [|c s IH]; cbn; [reflexivity|].
  destruct (Py.isspace c) eqn:Hc; [exact IH|]. cbn. exact Hc.
Qed.

Lemma rstrip_split s :
  exists post, s = Py.rstrip s +:+ post /\ whitespace_only post = true.
Proof.
  unfold Py.rstrip, whitespace_only. induction s as [|c s [post [Hs Hpost]]].
  - exists EmptyString. split; reflexivity.
  - cbn [Py.rstrip_by]. destruct (Py.rstrip_by Py.isspace s) as [|c' r].
    + change (EmptyString +:+ post) with post in Hs. subst s.
      destruct (Py.isspace c) eqn:Hc.
      * exists (String c post). split; [reflexivity|]. cbn. rewrite Hc. exact Hpost.
      * exists post. split; [reflexivity|exact Hpost].
    + exists post. split; [|exact Hpost].
      change (String c (String c' r) +:+ post)
        with (String c (String c' r +:+ post)).
      rewrite <- Hs. reflexivity.
Qed.

Lemma rstrip_no_trailing s : ends_with_space (Py.rstrip s) = false.
Proof.
  unfold Py.rstrip. induction s as [|c s IH]; [reflexivity|].
  cbn [Py.rstrip_by]. destruct (Py.rstrip_by Py.isspace s) as [|c' r].
  - destruct (Py.isspace c) eqn:Hc; [reflexivity|]. cbn. exact Hc.
  - exact IH.
Qed.

Lemma rstrip_keeps_no_leading s :
  starts_with_space s = false -> starts_with_space (Py.rstrip s) = false.
Proof.
  destruct s as [|c s]; [reflexivity|]. cbn [starts_with_space]. intros Hc.
  rewrite rstrip_cons_keep by exact Hc. exact Hc.
Qed.

Lemma append_empty_r s : s +:+ EmptyString = s.
Proof.
  induction s as [|c s IH]; [reflexivity|].
  change (String c s +:+ EmptyString) with (String c (s +:+ EmptyString)).
  rewrite IH. reflexivity.
Qed.

End TrimFacts.

Section PluginMore.

Variable sep : string.
Variable conf : Config.
Variable cc : CopyConfig.

Implicit Types (self : GlobalPlugin) (w : World).

(** X6. A move back followed by a move forward, and a move forward followed
    by a move back, bring the cursor back where it was, as long as the first
    move does not hit an end of the history; the two entries are spoken, no
    boundary beep is played, and nothing else of the plugin changes. *)
Theorem review_round_trip self :
  cursor_in_range self ->
  (history_pos self + 1 < Deque.len (_history self) ->
   exists older current,
     Deque.getitem (_history self) (history_pos self + 1) = Some older
     /\ Deque.getitem (_history self) (history_pos self) = Some current
     /\ (script_prevString conf;; script_nextString conf) self
        = Some (tt, self, [Speak older; Speak current]))
  /\ (0 < history_pos self ->
      exists newer current,
        Deque.getitem (_history self) (history_pos self - 1) = Some newer
        /\ Deque.getitem (_history self) (history_pos self) = Some current
        /\ (script_nextString conf;; script_prevString conf) self
           = Some (tt, self, [Speak newer; Speak current])).
Proof.
  intros [Hlo Hhi].
  assert (Hback : forall pos, at_pos (history_pos self) (at_pos pos self) = self).
  { intros pos. destruct self; reflexivity. }
  split.
  - intros Hin. unfold Deque.len in Hin.
    destruct (lookup_lt_is_Some_2 (Deque.items (_history self))
                (Z.to_nat (history_pos self + 1))) as [older Holder]; [lia|].
    destruct (lookup_lt_is_Some_2 (Deque.items (_history self))
                (Z.to_nat (history_pos self))) as [current Hcurrent]; [lia|].
    exists older, current.
    split; [apply getitem_lookup; [lia|exact Holder]|].
    split; [apply getitem_lookup; [lia|exact Hcurrent]|].
    rewrite (bind_run _ _ _ _ _ _ (prevString_inside conf self older Hlo Holder)).
    rewrite (nextString_inside conf _ current);
      cbn [at_pos set_history_pos history_pos _history].
    + replace (history_pos self + 1 - 1) with (history_pos self) by lia.
      rewrite Hback. reflexivity.
    + lia.
    + replace (history_pos self + 1 - 1) with (history_pos self) by lia.
      exact Hcurrent.
  - intros Hpos.
    assert (Hlt : history_pos self < Deque.len (_history self)).
    { destruct Hhi as [Hlt|[Hzero _]]; [exact Hlt|lia]. }
    unfold Deque.len in Hlt.
    destruct (lookup_lt_is_Some_2 (Deque.items (_history self))
                (Z.to_nat (history_pos self - 1))) as [newer Hnewer]; [lia|].
    destruct (lookup_lt_is_Some_2 (Deque.items (_history self))
                (Z.to_nat (history_pos self))) as [current Hcurrent]; [lia|].
    exists newer, current.
    split; [apply getitem_lookup; [lia|exact Hnewer]|].
    split; [apply getitem_lookup; [lia|exact Hcurrent]|].
    rewrite (bind_run _ _ _ _ _ _ (nextString_inside conf self newer Hpos Hnewer)).
    rewrite (prevString_inside conf _ current);
      cbn [at_pos set_history_pos history_pos _history].
    + replace (history_pos self - 1 + 1) with (history_pos self) by lia.
      rewrite Hback. reflexivity.
    + lia.
    + replace (history_pos self - 1 + 1) with (history_pos self) by lia.
      exact Hcurrent.
Qed.

Lemma method_history a w self' out :
  method_of sep conf cc a w (self w) = Some (tt, self', out) ->
  _history self' = _history (self w)
  \/ (exists seq, _history self' = Deque.appendleft seq (_history (self w)))
  \/ _history self' = Deque.clear (_history (self w)).
Proof.
  destruct a; cbn [method_of]; intros Hrun.
  - rewrite mySpeak_run in Hrun. injection Hrun as <- _. auto.
  - destruct (eventQueue w) as [|sequence queue].
    + injection Hrun as <- _. auto.
    + rewrite append_to_history_run in Hrun. injection Hrun as <- _. eauto.
  - apply prevString_frame in Hrun as [pos ->]. auto.
  - apply nextString_frame in Hrun as [pos ->]. auto.
  - rewrite startRecording_run in Hrun.
    destruct (_recording (self w)); injection Hrun as <- _; auto.
  - rewrite stopRecording_run in Hrun.
    destruct (_recording (self w)); injection Hrun as <- _; auto.
  - apply copyLast_frame in Hrun as ->. auto.
  - rewrite clearHistory_run in Hrun. injection Hrun as <- _. auto.
Qed.

Lemma reachable_within_maxlen w :
  reachable sep conf cc w ->
  within_maxlen (_history (self w))
  /\ Deque.maxlen (_history (self w)) = maxHistoryLength conf.
Proof.
  induction 1 as [|a w w' out _ [IHlen IHmax] Hstep].
  - split; [apply new_within_maxlen|reflexivity].
  - unfold perform in Hstep.
    destruct (method_of sep conf cc a w (self w)) as [[[[] self'] out']|] eqn:Hrun;
      [|discriminate].
    injection Hstep as <- _. cbn [self].
    destruct (method_history a w self' out' Hrun) as [->|[[seq ->]| ->]].
    + auto.
    + split; [apply appendleft_within_maxlen; exact IHlen|exact IHmax].
    + split; [unfold within_maxlen; cbn; lia|exact IHmax].
Qed.

(** X7. In every state the host can bring the plugin into, the history holds
    at most [maxHistoryLength] entries, the cursor is on an entry (or is 0
    when the history is empty), and whichever call comes next (a sequence
    is spoken, the next queued [append_to_history] runs, the gesture of
    [script_copyLast], [script_prevString], [script_nextString],
    [script_startRecording] or [script_stopRecording] is pressed, the dialog
    clears the history), the method returns: no index is ever out of
    range. *)
Theorem reachable_state_is_safe w :
  reachable sep conf cc w ->
  (length (Deque.items (_history (self w))) <= maxHistoryLength conf)%nat
  /\ cursor_in_range (self w)
  /\ forall a, exists w' out, perform sep conf cc a w = Some (w', out).
Proof.
  intros Hw. destruct (reachable_within_maxlen w Hw) as [Hlen Hmax].
  split; [unfold within_maxlen in Hlen; lia|].
  split; [exact (reachable_cursor_in_range sep conf cc w Hw)|].
  intros a. exact (reachable_perform sep conf cc a w Hw).
Qed.

(** X8. Reviewing and copying never touch the history or the recording:
    whenever [script_prevString] or [script_nextString] returns, the plugin
    differs from before in its cursor at most, and [script_copyLast] leaves
    the plugin exactly as it was. *)
Theorem review_changes_cursor_only self self' out :
  (script_prevString conf self = Some (tt, self', out)
   \/ script_nextString conf self = Some (tt, self', out)
   -> _history self' = _history self
      /\ _recorded self' = _recorded self
      /\ _recording self' = _recording self)
  /\ (forall copied,
        script_copyLast sep cc copied self = Some (tt, self', out) -> self' = self).
Proof.
  split.
  - intros [Hrun|Hrun];
      [apply prevString_frame in Hrun as [pos ->]
      |apply nextString_frame in Hrun as [pos ->]]; repeat split.
  - intros copied. apply copyLast_frame.
Qed.

(** X9. With an empty history the three scripts that read it only say "No
    history items.": nothing is copied, no beep is played, and the plugin
    is left as it was. *)
Theorem empty_history_is_announced self :
  Deque.items (_history self) = [] ->
  script_prevString conf self = Some (tt, self, [Speak [Str "No history items."]])
  /\ script_nextString conf self = Some (tt, self, [Speak [Str "No history items."]])
  /\ forall copied,
       script_copyLast sep cc copied self
       = Some (tt, self, [Speak [Str "No history items."]]).
Proof.
  intros Hempty. destruct (history_empty_no_items conf self Hempty) as [Hprev Hnext].
  split; [exact Hprev|]. split; [exact Hnext|].
  intros copied. apply copyLast_empty. exact Hempty.
Qed.

(** X10. [clearHistory] empties the history, keeping its capacity, puts the
    cursor at 0 and drops the texts recorded so far, while a recording in
    progress stays in progress. Afterwards the review scripts find no item,
    and stopping the recording right away copies nothing. *)
Theorem clearHistory_resets self :
  exists self',
    clearHistory self = Some (tt, self', [])
    /\ Deque.items (_history self') = []
    /\ Deque.maxlen (_history self') = Deque.maxlen (_history self)
    /\ history_pos self' = 0
    /\ _recorded self' = []
    /\ _recording self' = _recording self
    /\ script_prevString conf self'
       = Some (tt, self', [Speak [Str "No history items."]])
    /\ (_recording self = true ->
        script_stopRecording self'
        = Some (tt, set_recording false self',
                [Speak [Str "No recorded speech to copy"]])).
Proof.
  rewrite clearHistory_run. eexists. split; [reflexivity|].
  do 5 (split; [reflexivity|]). split.
  - apply history_empty_no_items. reflexivity.
  - intros Hrec. rewrite stopRecording_run. cbn. rewrite Hrec. reflexivity.
Qed.

(** X11. Starting a recording and stopping it with nothing spoken in between
    brings the plugin back to the state it was in, copies nothing to the
    clipboard and says so; and stopping when no recording is in progress
    changes nothing and says "Not currently recording speech". *)
Theorem start_then_stop w :
  reachable sep conf cc w ->
  _recording (self w) = false ->
  (script_startRecording;; script_stopRecording) (self w)
  = Some (tt, self w,
          [Speak [Str "Started recording speech"];
           Speak [Str "No recorded speech to copy"]])
  /\ script_stopRecording (self w)
     = Some (tt, self w, [Speak [Str "Not currently recording speech"]]).
Proof.
  intros Hw Hidle. pose proof (reachable_idle sep conf cc w Hw Hidle) as Hnone.
  destruct (self w) as [h recorded recording pos]. cbn in Hidle, Hnone. subst.
  split; reflexivity.
Qed.

(** X12. The recording keeps the order of speech while the history shows
    the latest entry first: after a recording is started and sequences are
    pushed, no more of them than the history can hold, the recorded texts
    are the texts of the history entries pushed since, in reverse order. *)
Theorem recording_reverses_history w seqs :
  reachable sep conf cc w ->
  _recording (self w) = false ->
  (length seqs <= maxHistoryLength conf)%nat ->
  exists self',
    (script_startRecording;; push_all sep seqs) (self w)
    = Some (tt, self', [Speak [Str "Started recording speech"]])
    /\ _recorded self'
       = rev (map (getSequenceText sep)
                  (take (length seqs) (Deque.items (_history self')))).
Proof.
  intros Hw Hidle Hfit.
  pose proof (reachable_idle sep conf cc w Hw Hidle) as Hnone.
  destruct (reachable_within_maxlen w Hw) as [Hlen Hmax].
  eexists. split.
  - unfold mbind, M_bind. rewrite startRecording_run, Hidle, push_all_run. reflexivity.
  - destruct seqs as [|seq seqs]; [cbn; exact Hnone|].
    cbn [_recorded _recording set_recording _history]. rewrite Hnone. cbn [app].
    destruct (appendleft_all_items (map stored (seq :: seqs)) (_history (self w)) Hlen)
      as [_ ->].
    rewrite Hmax, take_take, Nat.min_l by exact Hfit.
    rewrite take_app_length' by (rewrite length_rev, length_map; reflexivity).
    rewrite <- map_rev, rev_involutive, map_map.
    apply map_ext. intros s. symmetry. apply getSequenceText_stored.
Qed.

(** X13. A sequence with text passes through the host's queue into the
    history: [mySpeak] speaks it and queues one call of [append_to_history]
    without touching the plugin, and when the host runs the queued call the
    sequence, as stored, is the entry at position 0, with the cursor on it
    and the queue empty again. *)
Theorem spoken_sequence_enters_history w sequence :
  reachable sep conf cc w ->
  eventQueue w = [] ->
  whitespace_only (getSequenceText sep sequence) = false ->
  (MIN_HISTORY_ENTRIES <= maxHistoryLength conf)%nat ->
  exists w1 w2,
    perform sep conf cc (HostSpeaks sequence) w
    = Some (w1, [Speak sequence; QueueFunction sequence])
    /\ self w1 = self w
    /\ eventQueue w1 = [sequence]
    /\ perform sep conf cc HostRunsQueued w1 = Some (w2, [])
    /\ eventQueue w2 = []
    /\ Deque.getitem (_history (self w2)) 0 = Some (stored sequence)
    /\ history_pos (self w2) = 0.
Proof.
  intros Hw Hqueue Htext Hcap.
  destruct (reachable_within_maxlen w Hw) as [Hlen Hmax].
  destruct w as [self0 queue]. cbn in Hqueue, Hlen, Hmax. subst queue.
  do 2 eexists. split.
  { unfold perform. cbn [method_of self eventQueue].
    rewrite mySpeak_run, strip_truthy, Htext. reflexivity. }
  split; [reflexivity|]. split; [reflexivity|]. split.
  { unfold perform. cbn -[append_to_history].
    rewrite append_to_history_run. reflexivity. }
  split; [reflexivity|]. split; [|reflexivity].
  cbn [self _history]. apply getitem_lookup; [lia|].
  rewrite appendleft_items by exact Hlen. rewrite Hmax.
  unfold MIN_HISTORY_ENTRIES in Hcap.
  destruct (maxHistoryLength conf); [lia|reflexivity].
Qed.

(** X14. With the cursor on an entry, [script_copyLast] copies the text of
    that entry, less the whitespace at the ends chosen in the settings and
    nothing else: the copied text is the entry's text without a prefix and a
    suffix of whitespace, the prefix is empty unless the start is trimmed,
    the suffix is empty unless the end is trimmed, and a trimmed end of the
    copied text has no whitespace left. The feedback follows only when the
    clipboard took the text. *)
Theorem copyLast_trims_chosen_ends copied self :
  Deque.nonempty (_history self) = true ->
  cursor_in_range self ->
  exists entry copiedText pre post,
    Deque.getitem (_history self) (history_pos self) = Some entry
    /\ script_copyLast sep cc copied self
       = Some (tt, self,
               CopyToClip copiedText :: (if copied then post_copy_events cc else []))
    /\ getSequenceText sep entry = pre +:+ copiedText +:+ post
    /\ whitespace_only pre = true
    /\ whitespace_only post = true
    /\ (trimWhitespaceFromStart cc = false -> pre = EmptyString)
    /\ (trimWhitespaceFromEnd cc = false -> post = EmptyString)
    /\ (trimWhitespaceFromStart cc = true -> starts_with_space copiedText = false)
    /\ (trimWhitespaceFromEnd cc = true -> ends_with_space copiedText = false).
Proof.
  intros Hne Hcur. destruct (cursor_entry self Hne Hcur) as (entry & _ & Hentry).
  pose proof (copyLast_entry sep cc copied self entry Hentry Hne) as Hrun.
  cbv zeta in Hrun. set (text := getSequenceText sep entry) in *.
  exists entry.
  destruct (lstrip_split text) as (pre & Hpre & Hwpre).
  destruct (trimWhitespaceFromStart cc), (trimWhitespaceFromEnd cc).
  - destruct (rstrip_split (Py.lstrip text)) as (post & Hpost & Hwpost).
    exists (Py.rstrip (Py.lstrip text)), pre, post.
    split; [exact Hentry|]. split; [exact Hrun|].
    split; [rewrite <- Hpost; exact Hpre|].
    split; [exact Hwpre|]. split; [exact Hwpost|].
    split; [discriminate|]. split; [discriminate|].
    split; intros _;
      [apply rstrip_keeps_no_leading, lstrip_no_leading|apply rstrip_no_trailing].
  - exists (Py.lstrip text), pre, EmptyString.
    split; [exact Hentry|]. split; [exact Hrun|].
    split; [rewrite append_empty_r; exact Hpre|].
    split; [exact Hwpre|]. split; [reflexivity|].
    split; [discriminate|]. split; [reflexivity|].
    split; [intros _; apply lstrip_no_leading|discriminate].
  - destruct (rstrip_split text) as (post & Hpost & Hwpost).
    exists (Py.rstrip text), EmptyString, post.
    split; [exact Hentry|]. split; [exact Hrun|].
    split; [exact Hpost|].
    split; [reflexivity|]. split; [exact Hwpost|].
    split; [reflexivity|]. split; [discriminate|].
    split; [discriminate|intros _; apply rstrip_no_trailing].
  - exists text, EmptyString, EmptyString.
    split; [exact Hentry|]. split; [exact Hrun|].
    split; [rewrite append_empty_r; reflexivity|].
    split; [reflexivity|]. split; [reflexivity|].
    split; [reflexivity|]. split; [reflexivity|].
    split; discriminate.
Qed.

(** X15. Right after a sequence is pushed, [script_copyLast] copies the text
    of that sequence (trimmed as the settings say): the entry copied by
    default is the one spoken last. *)
Theorem copyLast_after_push copied self seq :
  within_maxlen (_history self) ->
  (1 <= Deque.maxlen (_history self))%nat ->
  exists self',
    (append_to_history sep seq;; script_copyLast sep cc copied) self
    = Some (tt, self',
            CopyToClip
              (let text := getSequenceText sep seq in
               let text := if trimWhitespaceFromStart cc then Py.lstrip text else text in
               if trimWhitespaceFromEnd cc then Py.rstrip text else text)
            :: (if copied then post_copy_events cc else []))
    /\ Deque.getitem (_history self') 0 = Some (stored seq).
Proof.
  intros Hlen Hcap.
  assert (Hhead : Deque.items (Deque.appendleft (stored seq) (_history self)) !! 0%nat
                  = Some (stored seq)).
  { rewrite appendleft_items by exact Hlen.
    destruct (Deque.maxlen (_history self)); [lia|reflexivity]. }
  eexists. split.
  - rewrite (bind_run _ _ _ _ _ _ (append_to_history_run sep seq self)).
    rewrite (copyLast_entry sep cc copied _ (stored seq)).
    + rewrite getSequenceText_stored. reflexivity.
    + cbn [history_pos _history]. apply getitem_lookup; [lia|exact Hhead].
    + cbn [_history]. exact (lookup_nonempty _ _ _ Hhead).
  - cbn [_history]. apply getitem_lookup; [lia|exact Hhead].
Qed.

End PluginMore.

Lemma in_pair_true x a b : in_pair x a b = true <-> x = a \/ x = b.
Proof. unfold in_pair. rewrite orb_true_iff, !String.eqb_eq. reflexivity. Qed.

(** X16. After a copy, a beep of the configured frequency and duration is
    played exactly when the post-copy action is "beep" or "speakAndBeep",
    and "Copied" is spoken exactly when it is "speak" or "speakAndBeep";
    nothing else is done, and the plugin is left as it was. The settings
    panel enables the beep controls for exactly the actions that beep. *)
Theorem post_copy_feedback (cc : CopyConfig) (self : GlobalPlugin) :
  exists out,
    _performPostCopyFeedback cc self = Some (tt, self, out)
    /\ (existsb is_Beep out = true
        <-> postCopyAction cc = "beep" \/ postCopyAction cc = "speakAndBeep")
    /\ (In (Speak [Str "Copied"]) out
        <-> postCopyAction cc = "speak" \/ postCopyAction cc = "speakAndBeep")
    /\ (forall e, In e out ->
          e = Beep (beepFrequency cc) (beepDuration cc) None
          \/ e = Speak [Str "Copied"])
    /\ (forall selection,
          list_getitem postCopyActionValues selection = Some (postCopyAction cc) ->
          refreshUI selection = Some (existsb is_Beep out)).
Proof.
  exists (post_copy_events cc). split; [apply performPostCopyFeedback_run|].
  assert (Hpanel : forall selection,
             list_getitem postCopyActionValues selection = Some (postCopyAction cc) ->
             refreshUI selection
             = Some (in_pair (postCopyAction cc) POST_COPY_BEEP POST_COPY_BOTH)).
  { intros selection Hrow. unfold refreshUI. rewrite Hrow. reflexivity. }
  unfold post_copy_events.
  pose proof (in_pair_true (postCopyAction cc) POST_COPY_BEEP POST_COPY_BOTH) as Hbeep.
  pose proof (in_pair_true (postCopyAction cc) POST_COPY_SPEAK POST_COPY_BOTH) as Hspeak.
  destruct (in_pair (postCopyAction cc) POST_COPY_BEEP POST_COPY_BOTH),
    (in_pair (postCopyAction cc) POST_COPY_SPEAK POST_COPY_BOTH); cbn.
  - split; [exact Hbeep|]. split; [rewrite <- Hspeak; split; auto|].
    split; [intros e [<-|[<-|[]]]; auto|exact Hpanel].
  - split; [exact Hbeep|].
    split; [rewrite <- Hspeak; split; [intros [[=]|[]]|discriminate]|].
    split; [intros e [<-|[]]; auto|exact Hpanel].
  - split; [exact Hbeep|]. split; [rewrite <- Hspeak; split; auto|].
    split; [intros e [<-|[]]; auto|exact Hpanel].
  - split; [exact Hbeep|].
    split; [rewrite <- Hspeak; split; [intros []|discriminate]|].
    split; [intros e []|exact Hpanel].
Qed.

(** ** The dialog: what it shows *)

Section DialogMore.

Import Dialog.

Variable sep : string.

Implicit Types (d : HistoryDialog) (text value item : string).

Lemma fold_Append_rows items c :
  rows (fold_left (fun c item => Append (first100 item) c) items c)
  = rows c ++ map first100 items.
Proof.
  revert c. induction items as [|item items IH]; intros c; cbn.
  - rewrite app_nil_r. reflexivity.
  - rewrite IH. cbn. rewrite <- app_assoc. reflexivity.
Qed.

Lemma doSearch_shows_view text d : list_shows_view (doSearch text d).
Proof.
  unfold list_shows_view. split.
  - unfold doSearch. cbn [historyList searchHistory].
    match goal with
    | |- context [fold_left ?f ?view ?c] =>
        set (shown := view); pose proof (fold_Append_rows shown c) as Hrows
    end.
    destruct shown; cbn [rows SelectAndFocus] in *; exact Hrows.
  - rewrite doSearch_focus, doSearch_view.
    destruct (matching text (history d)) as [|item view]; [reflexivity|].
    cbv zeta. set (size := Z.of_nat (length (item :: view))).
    assert (1 <= size) by (unfold size; cbn [length]; lia).
    destruct (Z.geb_spec (default 0 (searches d !! text)) size); lia.
Qed.

Lemma onSearch_curSearch value d : curSearch (onSearch value d) = Py.lower value.
Proof.
  destruct (String.eqb_spec (Py.lower value) (curSearch d)) as [Heq|Hne].
  - rewrite (onSearch_same _ _ Heq). congruence.
  - rewrite (onSearch_other _ _ Hne). reflexivity.
Qed.

Lemma dialog_step_consistent a d :
  view_in_sync d /\ list_shows_view d ->
  view_in_sync (dialog_step sep a d) /\ list_shows_view (dialog_step sep a d).
Proof.
  intros [Hsync Hshows]. destruct a as [value|addon|index]; cbn [dialog_step].
  - destruct (String.eqb_spec (Py.lower value) (curSearch d)) as [Heq|Hne].
    + rewrite (onSearch_same _ _ Heq). auto.
    + rewrite (onSearch_other _ _ Hne). split; [|apply doSearch_shows_view].
      unfold view_in_sync. rewrite doSearch_view. reflexivity.
  - split; [apply updateHistory_in_sync|apply doSearch_shows_view].
  - split; [apply userFocuses_in_sync; exact Hsync|].
    unfold userFocuses.
    destruct ((0 <=? index) && (index <? Z.of_nat (length (rows (historyList d)))))
      eqn:Hin; [|exact Hshows].
    destruct Hshows as [Hrows Hfocus]. unfold list_shows_view.
    cbn [historyList searchHistory rows focusedItem SelectAndFocus].
    split; [exact Hrows|].
    rewrite Hrows, length_map in Hin.
    apply andb_prop in Hin as [Hlo Hhi].
    apply Z.leb_le in Hlo. apply Z.ltb_lt in Hhi.
    destruct (searchHistory d) as [|item view]; [cbn in Hhi; lia|]. lia.
Qed.

(** X17. Whatever the user does in the dialog (searching, refreshing the
    history, moving the focus), the list is consistent: it shows exactly
    the entries of the snapshot that match the current query, one row per
    entry, and exactly one of its rows has the focus, unless there is no
    row, in which case none has. *)
Theorem dialog_always_consistent (addon : GlobalPlugin) (actions : list DialogAction) :
  let d := dialog_run sep actions (Dialog.__init__ sep addon) in
  searchHistory d = matching (curSearch d) (history d)
  /\ rows (historyList d) = map first100 (searchHistory d)
  /\ (searchHistory d = [] -> focusedItem (historyList d) = -1)
  /\ (searchHistory d <> [] ->
      0 <= focusedItem (historyList d) < Z.of_nat (length (searchHistory d))).
Proof.
  cbv zeta.
  assert (Hrun : forall d0,
             view_in_sync d0 /\ list_shows_view d0 ->
             view_in_sync (dialog_run sep actions d0)
             /\ list_shows_view (dialog_run sep actions d0)).
  { induction actions as [|a actions IH]; intros d0 H0; [exact H0|].
    cbn [dialog_run fold_left]. apply IH, dialog_step_consistent, H0. }
  destruct (Hrun (Dialog.__init__ sep addon)) as [Hsync [Hrows Hfocus]].
  { split; [apply init_in_sync|apply doSearch_shows_view]. }
  split; [exact Hsync|]. split; [exact Hrows|].
  destruct (searchHistory (dialog_run sep actions (Dialog.__init__ sep addon)));
    split; congruence.
Qed.

(** X18. Setting the search field again to the query that is shown, in
    whatever case, changes nothing in the dialog: the list and its focus
    stay as they are. *)
Theorem onSearch_again_is_ignored (value value' : string) (d : HistoryDialog) :
  Py.lower value' = Py.lower value ->
  onSearch value' (onSearch value d) = onSearch value d.
Proof.
  intros Hsame. apply onSearch_same. rewrite onSearch_curSearch. exact Hsame.
Qed.

Lemma first100_prefix n item :
  exists rest,
    item = String.substring 0 n item +:+ rest
    /\ String.length (String.substring 0 n item) = Nat.min n (String.length item).
Proof.
  revert n. induction item as [|c item IH]; intros [|n].
  - exists EmptyString. split; reflexivity.
  - exists EmptyString. split; reflexivity.
  - exists (String c item). split; reflexivity.
  - destruct (IH n) as (rest & Hitem & Hlen). exists rest. cbn. split.
    + change (String c (String.substring 0 n item) +:+ rest)
        with (String c (String.substring 0 n item +:+ rest)).
      rewrite <- Hitem. reflexivity.
    + rewrite Hlen. reflexivity.
Qed.

(** X19. A row of the list shows the first 100 characters of its entry, and
    the whole entry when it is no longer than that: after any search, row
    [i] is a prefix of entry [i] of the filtered view, of length
    [min(100, len(entry))]. *)
Theorem rows_show_first_100 (text : string) (d : HistoryDialog) (i : nat) (item : string) :
  searchHistory (doSearch text d) !! i = Some item ->
  exists row rest,
    rows (historyList (doSearch text d)) !! i = Some row
    /\ item = row +:+ rest
    /\ String.length row = Nat.min 100 (String.length item)
    /\ (String.length item <= 100 -> row = item)%nat.
Proof.
  intros Hitem. destruct (doSearch_shows_view text d) as [Hrows _].
  destruct (first100_prefix 100 item) as (rest & Hsplit & Hlen).
  exists (first100 item), rest.
  split; [rewrite Hrows, list_lookup_fmap, Hitem; reflexivity|].
  split; [exact Hsplit|]. split; [exact Hlen|].
  intros Hshort. unfold first100 in *.
  assert (Hrest : rest = EmptyString).
  { assert (Hl : String.length item
                 = (String.length (String.substring 0 100 item) + String.length rest)%nat).
    { rewrite Hsplit at 1. clear. induction (String.substring 0 100 item) as [|c s IH];
        [reflexivity|].
      change (String c s +:+ rest) with (String c (s +:+ rest)). cbn. rewrite IH.
      reflexivity. }
    rewrite Hlen in Hl. destruct rest as [|c rest]; [reflexivity|].
    cbn [String.length] in Hl. lia. }
  rewrite Hrest, append_empty_r in Hsplit. symmetry. exact Hsplit.
Qed.

End DialogMore.

(** ** The dialog: selection and copying *)

Section SelectionMore.

Import Selection.

Implicit Types (d : SelectingDialog) (view : list string) (sel : gset Z).

Lemma list_getitem_in_range {A} (l : list A) i :
  0 <= i < Z.of_nat (length l) -> list_getitem l i = l !! Z.to_nat i.
Proof.
  intros [Hlo Hhi]. unfold list_getitem. cbv zeta.
  rewrite !(proj2 (Z.ltb_ge i 0) Hlo), (proj2 (Z.leb_gt _ i)) by lia. reflexivity.
Qed.

Lemma picked_in_range view items :
  (forall i, In i items -> 0 <= i) ->
  picked view items
  = Some (omap (fun i => view !! Z.to_nat i)
               (List.filter (fun i => i <? Z.of_nat (length view)) items)).
Proof.
  induction items as [|index items IH]; intros Hpos; [reflexivity|].
  cbn [picked List.filter]. rewrite IH by (intros i Hi; apply Hpos; right; exact Hi).
  destruct (Z.ltb_spec index (Z.of_nat (length view))) as [Hlt|Hge]; [|reflexivity].
  assert (Hlo : 0 <= index) by (apply Hpos; left; reflexivity).
  rewrite list_getitem_in_range by lia.
  destruct (lookup_lt_is_Some_2 view (Z.to_nat index)) as [item Hitem]; [lia|].
  cbn. rewrite Hitem. reflexivity.
Qed.

Lemma StronglySorted_filter {A} (R : relation A) (f : A -> bool) (l : list A) :
  StronglySorted R l -> StronglySorted R (List.filter f l).
Proof.
  induction 1 as [|x l Hl IH Hx]; cbn; [constructor|].
  destruct (f x); [|exact IH]. constructor; [exact IH|].
  rewrite List.Forall_forall in *. intros y Hy. apply Hx.
  apply filter_In in Hy as [Hy _]. exact Hy.
Qed.

Lemma range_from_sorted start n :
  StronglySorted Z.le (Z.of_nat <$> seq start n).
Proof.
  revert start. induction n as [|n IH]; intros start; cbn; constructor.
  - apply IH.
  - rewrite List.Forall_forall. intros y Hy.
    apply list_elem_of_In, list_elem_of_fmap in Hy as (k & -> & Hk).
    apply elem_of_seq in Hk. lia.
Qed.

Lemma elem_of_range0 n x : In x (range0 n) <-> 0 <= x < Z.of_nat n.
Proof.
  unfold range0. rewrite <- list_elem_of_In, list_elem_of_fmap. split.
  - intros (k & -> & Hk). apply elem_of_seq in Hk. lia.
  - intros Hx. exists (Z.to_nat x). split; [lia|]. apply elem_of_seq. lia.
Qed.

Lemma NoDup_range0 n : NoDup (range0 n).
Proof.
  unfold range0. apply NoDup_fmap_2; [intros x y; lia|apply NoDup_seq].
Qed.

Lemma elem_of_sorted sel x : In x (sorted sel) <-> x ∈ sel.
Proof.
  unfold sorted. rewrite <- list_elem_of_In.
  rewrite (merge_sort_Permutation Z.le (elements sel)). apply elem_of_elements.
Qed.

Lemma NoDup_sorted sel : NoDup (sorted sel).
Proof.
  unfold sorted. rewrite (merge_sort_Permutation Z.le (elements sel)).
  apply NoDup_elements.
Qed.

(** The selected indices that are rows of the view, in ascending order, are
    the rows of the view that are selected. *)
Lemma sorted_in_view sel n :
  (forall i, i ∈ sel -> 0 <= i) ->
  List.filter (fun i => i <? Z.of_nat n) (sorted sel)
  = List.filter (fun i => bool_decide (i ∈ sel)) (range0 n).
Proof.
  intros Hpos. apply (Sorted_unique Z.le).
  - apply StronglySorted_Sorted, StronglySorted_filter.
    apply (StronglySorted_merge_sort Z.le).
  - apply StronglySorted_Sorted, StronglySorted_filter, range_from_sorted.
  - apply NoDup_Permutation.
    + apply NoDup_ListNoDup, List.NoDup_filter, NoDup_ListNoDup, NoDup_sorted.
    + apply NoDup_ListNoDup, List.NoDup_filter, NoDup_ListNoDup, NoDup_range0.
    + intros x. rewrite !list_elem_of_In, !filter_In.
      rewrite elem_of_sorted, elem_of_range0, Z.ltb_lt, bool_decide_eq_true.
      split.
      * intros [Hx Hlt]. specialize (Hpos x Hx). split; [lia|exact Hx].
      * intros [Hx Hsel]. split; [exact Hsel|lia].
Qed.

Lemma itemsToString_sorted d :
  (forall i, i ∈ selection d -> 0 <= i) ->
  itemsToString d (sorted (selection d))
  = Some (Py.join LF (selected_rows (Dialog.searchHistory (dialog d)) (selection d))).
Proof.
  intros Hpos. unfold itemsToString, selected_rows.
  rewrite picked_in_range by (intros i Hi; apply Hpos, elem_of_sorted, Hi).
  rewrite sorted_in_view by exact Hpos. reflexivity.
Qed.

Lemma omap_lookup_range view :
  omap (fun i => view !! Z.to_nat i) (range0 (length view)) = view.
Proof.
  unfold range0.
  assert (Hgen : forall pre view,
             omap (fun i => (pre ++ view) !! Z.to_nat i)
                  (Z.of_nat <$> seq (length pre) (length view)) = view).
  { clear. intros pre view. revert pre. induction view as [|item view IH]; intros pre.
    - reflexivity.
    - cbn [length seq fmap list_fmap omap list_omap].
      rewrite Nat2Z.id, list_lookup_middle by reflexivity.
      f_equal. specialize (IH (pre ++ [item])).
      rewrite <- app_assoc, length_app in IH. cbn in IH.
      rewrite Nat.add_1_r in IH. exact IH. }
  exact (Hgen [] view).
Qed.

End SelectionMore.

Section SelectionClaims.

Import Selection.

Variable cc : CopyConfig.

Implicit Types (d : SelectingDialog) (view : list string) (sel : gset Z).

Lemma selected_rows_sublist view sel : sublist (selected_rows view sel) view.
Proof.
  unfold selected_rows, range0.
  assert (Hgen : forall pre view,
             sublist
               (omap (fun i => (pre ++ view) !! Z.to_nat i)
                  (List.filter (fun i => bool_decide (i ∈ sel))
                     (Z.of_nat <$> seq (length pre) (length view))))
               view).
  { clear. intros pre view. revert pre. induction view as [|item view IH]; intros pre.
    - constructor.
    - specialize (IH (pre ++ [item])).
      rewrite <- app_assoc, length_app in IH. cbn in IH.
      rewrite Nat.add_1_r in IH.
      cbn [length seq fmap list_fmap List.filter].
      destruct (bool_decide (Z.of_nat (length pre) ∈ sel)).
      + cbn [omap list_omap].
        rewrite Nat2Z.id, list_lookup_middle by reflexivity.
        constructor. exact IH.
      + constructor. exact IH. }
  exact (Hgen [] view).
Qed.

Lemma updateSelection_run d :
  (forall i, i ∈ selection d -> 0 <= i) ->
  updateSelection d
  = Some {| dialog := dialog d; selection := selection d;
            currentTextElement :=
              Py.join LF (selected_rows (Dialog.searchHistory (dialog d)) (selection d)) |}.
Proof.
  intros Hpos. unfold updateSelection. rewrite itemsToString_sorted by exact Hpos.
  reflexivity.
Qed.

(** X20. The text field of the dialog shows the selected rows in the order of
    the list, whatever the order in which they were selected: it holds the
    entries of the filtered view whose row number is selected, by ascending
    row number, joined by line feeds. They are taken from the view in its
    order, and a selected row number past the end of the view is passed
    over. *)
Theorem selected_text_in_row_order d :
  (forall i, i ∈ selection d -> 0 <= i) ->
  let view := Dialog.searchHistory (dialog d) in
  exists d',
    updateSelection d = Some d'
    /\ dialog d' = dialog d
    /\ selection d' = selection d
    /\ currentTextElement d' = Py.join LF (selected_rows view (selection d))
    /\ sublist (selected_rows view (selection d)) view
    /\ (forall item,
          In item (selected_rows view (selection d)) ->
          exists i, i ∈ selection d /\ view !! Z.to_nat i = Some item
                    /\ 0 <= i < Z.of_nat (length view)).
Proof.
  intros Hpos view. eexists. split; [apply updateSelection_run; exact Hpos|].
  repeat (split; [reflexivity|]). split; [apply selected_rows_sublist|].
  intros item Hitem. unfold selected_rows in Hitem.
  apply list_elem_of_In, list_elem_of_omap in Hitem as (i & Hi & Hlook).
  apply list_elem_of_In, filter_In in Hi as [Hrange Hsel].
  apply elem_of_range0 in Hrange. apply bool_decide_eq_true in Hsel.
  exists i. auto.
Qed.

(** X21. Selecting two rows gives the same selection and the same text in
    either order, and deselecting a row that was just selected gives back
    the selection and the text there were before it. *)
Theorem selection_order_is_irrelevant d (i j : Z) :
  (forall k, k ∈ selection d -> 0 <= k) ->
  0 <= i -> 0 <= j ->
  (onSelect i d ≫= onSelect j) = (onSelect j d ≫= onSelect i)
  /\ is_Some (onSelect i d ≫= onSelect j)
  /\ (i ∉ selection d -> (onSelect i d ≫= onDeselect i) = updateSelection d).
Proof.
  intros Hpos Hi Hj.
  assert (Hadd : forall k sel, 0 <= k -> (forall x, x ∈ sel -> 0 <= x) ->
                               forall x, x ∈ ({[k]} ∪ sel : gset Z) -> 0 <= x).
  { intros k sel Hk Hsel x Hx. apply elem_of_union in Hx as [Hx|Hx].
    - apply elem_of_singleton in Hx. lia.
    - apply Hsel. exact Hx. }
  unfold onSelect, onDeselect.
  rewrite !updateSelection_run
    by (cbn [selection]; repeat (apply Hadd; [assumption|]); exact Hpos).
  cbn.
  rewrite !updateSelection_run
    by (cbn [selection]; repeat (apply Hadd; [assumption|]); exact Hpos).
  cbn.
  assert (Hswap : {[j]} ∪ ({[i]} ∪ selection d) = {[i]} ∪ ({[j]} ∪ selection d)
                  :> gset Z).
  { apply set_eq. intros x. rewrite !elem_of_union. tauto. }
  rewrite Hswap. split; [reflexivity|]. split; [eexists; reflexivity|].
  intros Hnew.
  assert (Hback : ({[i]} ∪ selection d) ∖ {[i]} = selection d :> gset Z).
  { apply set_eq. intros x.
    rewrite elem_of_difference, elem_of_union, elem_of_singleton. split.
    - intros [[Hx|Hx] Hne]; [contradiction|exact Hx].
    - intros Hx. split; [right; exact Hx|]. intros ->. contradiction. }
  rewrite updateSelection_run; cbn [selection dialog]; rewrite Hback; [reflexivity|auto].
Qed.

(** X22. "Copy all" copies the whole filtered view, its entries joined by
    line feeds in the order shown, and gives the post-copy feedback when the
    clipboard took the text; when that text is empty (no entry, or a single
    empty one) nothing is copied. *)
Theorem copyAll_copies_view (copied : bool) (addon : GlobalPlugin) d :
  let text := Py.join LF (Dialog.searchHistory (dialog d)) in
  onCopyAll cc copied addon d
  = Some (if Py.truthy text
          then CopyToClip text :: (if copied then post_copy_events cc else [])
          else [])
  /\ (Dialog.searchHistory (dialog d) = [] -> onCopyAll cc copied addon d = Some []).
Proof.
  cbv zeta.
  assert (Hall : itemsToString d (range0 (length (Dialog.searchHistory (dialog d))))
                 = Some (Py.join LF (Dialog.searchHistory (dialog d)))).
  { unfold itemsToString. rewrite picked_in_range.
    - replace (List.filter _ _) with (range0 (length (Dialog.searchHistory (dialog d)))).
      + rewrite omap_lookup_range. reflexivity.
      + symmetry. apply forallb_filter_id. apply forallb_forall.
        intros i Hi. apply elem_of_range0 in Hi. apply Z.ltb_lt. lia.
    - intros i Hi. apply elem_of_range0 in Hi. lia. }
  assert (Hrun : onCopyAll cc copied addon d
                 = Some (if Py.truthy (Py.join LF (Dialog.searchHistory (dialog d)))
                         then CopyToClip (Py.join LF (Dialog.searchHistory (dialog d)))
                              :: (if copied then post_copy_events cc else [])
                         else [])).
  { unfold onCopyAll. rewrite Hall. cbn. unfold copy_text.
    destruct (Py.truthy _); [|reflexivity].
    destruct copied; [|reflexivity].
    rewrite performPostCopyFeedback_run. reflexivity. }
  split; [exact Hrun|].
  intros Hempty. rewrite Hrun, Hempty. reflexivity.
Qed.

End SelectionClaims.

(** ** The updater *)

Section UpdateMore.

Import Update.

Lemma endswith_unfold suffix s :
  endswith suffix s =
  if String.eqb s suffix then true
  else match s with
       | EmptyString => false
       | String _ s' => endswith suffix s'
       end.
Proof. destruct s; reflexivity. Qed.

Lemma endswith_suffix suffix s :
  endswith suffix s = true <-> exists stem, s = stem +:+ suffix.
Proof.
  split.
  - induction s as [|c s IH]; rewrite endswith_unfold.
    + destruct (String.eqb_spec EmptyString suffix) as [Heq|Hne]; [|discriminate].
      intros _. exists EmptyString. exact Heq.
    + destruct (String.eqb_spec (String c s) suffix) as [Heq|Hne].
      * intros _. exists EmptyString. exact Heq.
      * intros Hend. destruct (IH Hend) as [stem ->].
        exists (String c stem). reflexivity.
  - intros [stem ->]. induction stem as [|c stem IH].
    + rewrite endswith_unfold.
      change (EmptyString +:+ suffix) with suffix. rewrite String.eqb_refl. reflexivity.
    + change (String c stem +:+ suffix) with (String c (stem +:+ suffix)).
      rewrite endswith_unfold. destruct (String.eqb _ suffix); [reflexivity|exact IH].
Qed.

Lemma truthy_opt_true o :
  truthy_opt o = true <-> exists s, o = Some s /\ s <> EmptyString.
Proof.
  destruct o as [[|c s]|]; cbn; split.
  - discriminate.
  - intros [s' [Hs' Hne]]. injection Hs' as <-. congruence.
  - intros _. eexists. split; [reflexivity|discriminate].
  - intros _. reflexivity.
  - discriminate.
  - intros [s [Hs _]]. discriminate.
Qed.

Lemma first_addon_url_first (assets : list Asset) :
  match first_addon_url assets with
  | Some url =>
      exists before asset after,
        assets = before ++ asset :: after
        /\ installable asset = true
        /\ browser_download_url asset = Some url
        /\ (forall a, In a before -> installable a = false)
  | None => forall a, In a assets -> installable a = false
  end.
Proof.
  induction assets as [|asset assets IH]; cbn [first_addon_url].
  - intros a [].
  - fold (installable asset). destruct (installable asset) eqn:Hasset.
    + destruct (browser_download_url asset) as [url|] eqn:Hurl.
      * exists [], asset, assets. repeat split; auto. intros a [].
      * unfold installable in Hasset. rewrite Hurl, andb_false_r in Hasset. discriminate.
    + destruct (first_addon_url assets) as [url|].
      * destruct IH as (before & found & after & -> & Hfound & Hurl & Hbefore).
        exists (asset :: before), found, after. repeat split; auto.
        intros a [<-|Ha]; auto.
      * intros a [<-|Ha]; auto.
Qed.

End UpdateMore.

(** X23. From the decoded release, [_fetchLatestReleaseInfo] takes the
    version from [tag_name], or from [name] when the tag is missing or
    empty, and fails when both are; the download URL is that of the first
    asset whose name ends in [.nvda-addon], in any case of the letters, and
    that has a non-empty URL, and there is none when no asset is like
    that. *)
Theorem latestReleaseInfo_takes_first_addon (data : Update.ReleaseData) :
  (Update.latestReleaseInfo data = None
   <-> Update.truthy_opt (Update.tag_name data) = false
       /\ Update.truthy_opt (Update.release_name data) = false)
  /\ (forall version url,
        Update.latestReleaseInfo data = Some (version, url) ->
        version <> EmptyString
        /\ (Update.truthy_opt (Update.tag_name data) = true ->
            Update.tag_name data = Some version)
        /\ (Update.truthy_opt (Update.tag_name data) = false ->
            Update.release_name data = Some version)
        /\ match url with
           | Some found =>
               exists before asset after,
                 Update.assets data = before ++ asset :: after
                 /\ installable asset = true
                 /\ Update.browser_download_url asset = Some found
                 /\ (forall a, In a before -> installable a = false)
           | None => forall a, In a (Update.assets data) -> installable a = false
           end)
  /\ (forall asset,
        installable asset = true
        <-> (exists stem,
               Py.lower (default EmptyString (Update.asset_name asset))
               = stem +:+ ".nvda-addon")
            /\ (exists found,
                  Update.browser_download_url asset = Some found
                  /\ found <> EmptyString)).
Proof.
  split; [|split].
  - unfold Update.latestReleaseInfo, Update.or_else. cbv zeta.
    destruct (Update.truthy_opt (Update.tag_name data)) eqn:Htag.
    + rewrite Htag. cbn. split; [discriminate|intros [[=] _]].
    + destruct (Update.truthy_opt (Update.release_name data)); cbn;
        split; auto; try discriminate. intros [_ [=]].
  - intros version url. unfold Update.latestReleaseInfo, Update.or_else. cbv zeta.
    destruct (Update.truthy_opt (Update.tag_name data)) eqn:Htag.
    + rewrite Htag. cbn. intros [= <- <-].
      apply truthy_opt_true in Htag as (tag & Htag & Hne). rewrite Htag. cbn.
      split; [exact Hne|]. split; [reflexivity|]. split; [discriminate|].
      apply first_addon_url_first.
    + destruct (Update.truthy_opt (Update.release_name data)) eqn:Hname; cbn;
        [|discriminate].
      intros [= <- <-].
      apply truthy_opt_true in Hname as (name & Hname & Hne). rewrite Hname. cbn.
      split; [exact Hne|]. split; [discriminate|]. split; [reflexivity|].
      apply first_addon_url_first.
  - intros asset. unfold installable.
    rewrite andb_true_iff, endswith_suffix, truthy_opt_true. reflexivity.
Qed.

Section FileNameFacts.

Import Update.

Lemma all_chars_app p a b :
  all_chars p (a +:+ b) = all_chars p a && all_chars p b.
Proof.
  induction a as [|c a IH]; [reflexivity|].
  change (String c a +:+ b) with (String c (a +:+ b)). cbn.
  rewrite IH, andb_assoc. reflexivity.
Qed.

Lemma sub_unsafe_safe s : all_chars is_safe_char (sub_unsafe s) = true.
Proof.
  induction s as [|c s IH]; [reflexivity|]. cbn. rewrite IH, andb_true_r.
  destruct (is_safe_char c) eqn:Hc; [exact Hc|reflexivity].
Qed.

Lemma sub_unsafe_id s : all_chars is_safe_char s = true -> sub_unsafe s = s.
Proof.
  induction s as [|c s IH]; [reflexivity|]. cbn.
  intros Hall. apply andb_prop in Hall as [Hc Hs]. rewrite Hc, IH by exact Hs.
  reflexivity.
Qed.

Lemma all_chars_char_in p s c :
  all_chars p s = true -> Py.char_in c s = true -> p c = true.
Proof.
  induction s as [|c' s IH]; cbn; [discriminate|].
  intros Hall. apply andb_prop in Hall as [Hc Hs].
  destruct (Ascii.eqb_spec c c') as [->|_]; auto.
Qed.

End FileNameFacts.

(** X24. The name of the file the update is downloaded to is made of
    letters, digits, dots, underscores and hyphens only, whatever the
    version string of the release: it holds no path separator, so the file
    lies in the temporary directory itself. Replacing the other characters
    keeps the length, and leaves a version made of such characters as it
    is. *)
Theorem fileName_has_safe_characters (latestVersion : string) :
  all_chars Update.is_safe_char (Update.fileName latestVersion) = true
  /\ (forall c, Py.char_in c (Update.fileName latestVersion) = true ->
        c <> "/"%char /\ c <> "\"%char /\ c <> ":"%char /\ Py.isspace c = false)
  /\ String.length (Update.sub_unsafe latestVersion) = String.length latestVersion
  /\ (all_chars Update.is_safe_char latestVersion = true ->
      Update.fileName latestVersion
      = "enchancedSpeechHistory-" +:+ latestVersion +:+ ".nvda-addon").
Proof.
  assert (Hsafe : all_chars Update.is_safe_char (Update.fileName latestVersion) = true).
  { unfold Update.fileName. rewrite !all_chars_app, sub_unsafe_safe. reflexivity. }
  split; [exact Hsafe|]. split; [|split].
  - intros c Hc. pose proof (all_chars_char_in _ _ c Hsafe Hc) as Hok.
    repeat split; try (intros ->; discriminate Hok).
    destruct c as [[] [] [] [] [] [] [] []]; vm_compute in Hok |- *;
      first [reflexivity | discriminate Hok].
  - clear. induction latestVersion as [|c s IH]; [reflexivity|].
    cbn [Update.sub_unsafe String.length]. rewrite IH. reflexivity.
  - intros Hall. unfold Update.fileName. rewrite sub_unsafe_id by exact Hall.
    reflexivity.
Qed.

Section UpdateFlow.

Import Update.

Implicit Types (self : Updater) (w : UpdateWorld).

Lemma downloadAndInstallUpdate_starts url version self :
  let '(self', out) := downloadAndInstallUpdate url version self in
  _updateCheckInProgress self' = _updateCheckInProgress self
  /\ started_checks out = 0%nat
  /\ (if _updateDownloadInProgress self
      then self' = self /\ started_downloads out = 0%nat
      else _updateDownloadInProgress self' = truthy_opt url
           /\ started_downloads out = (if truthy_opt url then 1 else 0)%nat).
Proof.
  unfold downloadAndInstallUpdate.
  destruct (_updateDownloadInProgress self) eqn:Hflag; [cbn; auto|].
  destruct (truthy_opt url); cbn; auto.
Qed.

Lemma onUpdateCheckComplete_starts r yes self :
  let '(self', out) := _onUpdateCheckComplete r yes self in
  _updateCheckInProgress self' = false
  /\ started_checks out = 0%nat
  /\ (if _updateDownloadInProgress self
      then _updateDownloadInProgress self' = true /\ started_downloads out = 0%nat
      else started_downloads out
           = (if _updateDownloadInProgress self' then 1 else 0)%nat).
Proof.
  unfold _onUpdateCheckComplete. cbv zeta.
  destruct (truthy_opt (errorMessage r)).
  { cbn. destruct (manual r), (_updateDownloadInProgress self); cbn; auto. }
  destruct (isNewVersion r && truthy_opt (latestVersion r)).
  2:{ cbn. destruct (manual r), (_updateDownloadInProgress self); cbn; auto. }
  destruct yes.
  2:{ cbn. destruct (_updateDownloadInProgress self); cbn; auto. }
  match goal with
  | |- context [downloadAndInstallUpdate ?url ?version ?s] =>
      pose proof (downloadAndInstallUpdate_starts url version s) as Hstart;
      destruct (downloadAndInstallUpdate url version s) as [self' out]
  end.
  cbn [_updateCheckInProgress _updateDownloadInProgress] in Hstart.
  destruct Hstart as (Hcheck & Hchecks & Hdown).
  cbn [started_checks started_downloads].
  split; [exact Hcheck|]. split; [exact Hchecks|].
  destruct (_updateDownloadInProgress self).
  - destruct Hdown as [-> Hnone]. cbn. auto.
  - destruct Hdown as [-> ->]. reflexivity.
Qed.

Lemma update_step_flags a w w' out :
  flags_count_threads w ->
  update_step a w = Some (w', out) ->
  flags_count_threads w'.
Proof.
  unfold flags_count_threads.
  destruct w as [[checking downloading] checks downloads]. cbn.
  intros [-> ->]. destruct a as [manual|r yes|path err isfile canInstall]; cbn.
  - destruct checking; cbn.
    + intros [= <- _]. cbn. destruct manual; cbn; split; lia.
    + intros [= <- _]. cbn. split; lia.
  - destruct checking; [|discriminate].
    pose proof (onUpdateCheckComplete_starts r yes
      {| _updateCheckInProgress := true; _updateDownloadInProgress := downloading |})
      as Hstart.
    destruct (_onUpdateCheckComplete r yes _) as [self' out'].
    cbn [_updateDownloadInProgress] in Hstart.
    destruct Hstart as (Hcheck & Hchecks & Hdown).
    intros [= <- _]. cbn. rewrite Hcheck, Hchecks.
    split; [reflexivity|].
    destruct downloading; [destruct Hdown as [-> ->]; reflexivity|].
    rewrite Hdown. reflexivity.
  - destruct downloading; [|discriminate].
    unfold _onUpdateDownloadComplete. cbv zeta.
    destruct (truthy_opt err); [intros [= <- _]; cbn; split; lia|].
    destruct (negb (truthy_opt path) || negb isfile);
      [intros [= <- _]; cbn; split; lia|].
    destruct canInstall; intros [= <- _]; cbn; split; lia.
Qed.

Lemma update_reachable_flags w : update_reachable w -> flags_count_threads w.
Proof.
  induction 1 as [|a w w' out _ IH Hstep].
  - split; reflexivity.
  - eapply update_step_flags; eassumption.
Qed.

(** X25. At most one update check and at most one download run at any time:
    a worker thread is started only when the flag of its kind is clear, the
    flag is set for exactly as long as the thread runs, and a request for a
    check made while one is running starts nothing and is only answered,
    when it was made by the user, that a check is in progress already. *)
Theorem update_single_flight w :
  update_reachable w ->
  (checkThreads w <= 1)%nat
  /\ (downloadThreads w <= 1)%nat
  /\ (_updateCheckInProgress (updater w) = true <-> checkThreads w = 1%nat)
  /\ (_updateDownloadInProgress (updater w) = true <-> downloadThreads w = 1%nat)
  /\ (forall manual,
        checkThreads w = 1%nat ->
        update_step (RequestCheck manual) w
        = Some (w, if manual
                   then [Message "Enchanced Speech History update check is already in progress."]
                   else [])).
Proof.
  intros Hw. destruct (update_reachable_flags w Hw) as [Hcheck Hdown].
  destruct w as [[checking downloading] checks downloads]. cbn in *.
  destruct checking, downloading; subst; cbn;
    (split; [lia|]); (split; [lia|]);
    (split; [split; first [reflexivity|discriminate|lia]|]);
    (split; [split; first [reflexivity|discriminate|lia]|]);
    intros manual Hone; try discriminate; destruct manual; reflexivity.
Qed.

Lemma newer_than_empty current : _isVersionNewer current EmptyString = false.
Proof.
  destruct (_isVersionNewer current EmptyString) eqn:Hnew; [|reflexivity].
  apply isVersionNewer_fields in Hnew as [i [_ Hi]].
  rewrite (version_field_no_digits EmptyString i eq_refl) in Hi. lia.
Qed.

(** X26. When a check completes, the check flag is cleared, and the user is
    asked whether to install exactly when the release was fetched and its
    version is newer than the running one. Otherwise a check made at
    startup says nothing at all, and a check made by the user gets one
    message: that the check failed when the fetch raised an exception with
    a message, that the add-on is up to date in every other case. *)
Theorem update_offered_when_newer (byUser : bool) (current : string)
    (fetched : string * option string + string) (yes : bool) (self : Updater) :
  let r := _checkForUpdatesWorker byUser current fetched in
  let newer :=
    match fetched with
    | inl (latest, _) => _isVersionNewer current latest
    | inr _ => false
    end in
  let failed :=
    match fetched with
    | inl _ => false
    | inr e => Py.truthy e
    end in
  let '(self', out) := _onUpdateCheckComplete r yes self in
  _updateCheckInProgress self' = false
  /\ ((exists message title, In (MessageBox message title) out) <-> newer = true)
  /\ (newer = false ->
      self' = {| _updateCheckInProgress := false;
                 _updateDownloadInProgress := _updateDownloadInProgress self |}
      /\ out = if byUser
               then [Message (if failed
                              then "Could not check for Enchanced Speech History updates."
                              else "You are using the latest Enchanced Speech History version.")]
               else []).
Proof.
  cbv zeta.
  pose proof (onUpdateCheckComplete_starts
                (_checkForUpdatesWorker byUser current fetched) yes self) as Hstart.
  unfold _onUpdateCheckComplete in *. cbv zeta in *.
  destruct fetched as [[latest url]|e];
    cbn [_checkForUpdatesWorker errorMessage isNewVersion latestVersion manual
         currentVersion downloadUrl truthy_opt default andb] in *.
  - destruct (_isVersionNewer current latest) eqn:Hnew; cbn [andb] in *.
    + assert (Hlatest : Py.truthy latest = true).
      { destruct latest; [|reflexivity]. rewrite newer_than_empty in Hnew. discriminate. }
      rewrite Hlatest in *. destruct yes.
      * match goal with
        | |- context [downloadAndInstallUpdate ?u ?v ?s] =>
            destruct (downloadAndInstallUpdate u v s) as [self' out]
        end.
        destruct Hstart as [Hcheck _]. split; [exact Hcheck|].
        split; [|discriminate]. split; [reflexivity|].
        intros _. do 2 eexists. left. reflexivity.
      * split; [reflexivity|]. split; [|discriminate]. split; [reflexivity|].
        intros _. do 2 eexists. left. reflexivity.
    + split; [reflexivity|]. split.
      * split; [|discriminate]. intros (m & t & Hin).
        destruct byUser; cbn in Hin; intuition discriminate.
      * intros _. split; reflexivity.
  - destruct (Py.truthy e); (split; [reflexivity|]); split;
      try (split; [|discriminate]; intros (m & t & Hin);
           destruct byUser; cbn in Hin; intuition discriminate);
      intros _; split; reflexivity.
Qed.

(** X27. When the user accepts the update, the package of the first
    installable asset of the release is downloaded: the download thread is
    started with its URL, unless a download is running already; when the
    release has no installable asset nothing is started and the user is told
    that there is no package. When the user declines, nothing follows the
    question. *)
Theorem accepted_update_downloads_first_addon (data : ReleaseData)
    (byUser : bool) (current version : string) (url : option string)
    (self : Updater) :
  latestReleaseInfo data = Some (version, url) ->
  _isVersionNewer current version = true ->
  let r := _checkForUpdatesWorker byUser current (inl (version, url)) in
  let box := MessageBox (update_prompt version current)
                        "Enchanced Speech History update available" in
  let idle := {| _updateCheckInProgress := false;
                 _updateDownloadInProgress := _updateDownloadInProgress self |} in
  _onUpdateCheckComplete r false self = (idle, [box])
  /\ (_updateDownloadInProgress self = true ->
      _onUpdateCheckComplete r true self
      = (idle, [box; Message "Enchanced Speech History update download is already in progress."]))
  /\ (_updateDownloadInProgress self = false ->
      match url with
      | Some found =>
          (exists before asset after,
             assets data = before ++ asset :: after
             /\ installable asset = true
             /\ browser_download_url asset = Some found
             /\ (forall a, In a before -> installable a = false))
          /\ _onUpdateCheckComplete r true self
             = ({| _updateCheckInProgress := false; _updateDownloadInProgress := true |},
                [box; Message "Downloading Enchanced Speech History update.";
                 StartDownloadThread found version])
      | None =>
          (forall a, In a (assets data) -> installable a = false)
          /\ _onUpdateCheckComplete r true self
             = (idle,
                [box; Message "Update found, but no .nvda-addon package is available in this release."])
      end).
Proof.
  intros Hinfo Hnew. cbv zeta.
  assert (Hversion : Py.truthy version = true).
  { destruct version; [|reflexivity]. rewrite newer_than_empty in Hnew. discriminate. }
  assert (Hurl : url = first_addon_url (assets data)).
  { unfold latestReleaseInfo in Hinfo. cbv zeta in Hinfo.
    destruct (negb _); [discriminate|]. congruence. }
  pose proof (first_addon_url_first (assets data)) as Hfirst. rewrite <- Hurl in Hfirst.
  unfold _onUpdateCheckComplete, downloadAndInstallUpdate. cbv zeta.
  cbn [_checkForUpdatesWorker errorMessage isNewVersion latestVersion manual
       currentVersion downloadUrl truthy_opt default andb
       _updateDownloadInProgress _updateCheckInProgress].
  rewrite Hnew, Hversion. cbn [andb].
  split; [reflexivity|]. split.
  - intros ->. reflexivity.
  - intros ->. destruct url as [found|].
    + split; [exact Hfirst|].
      destruct Hfirst as (before & asset & after & _ & Hasset & Hfound & _).
      unfold installable in Hasset. rewrite Hfound in Hasset.
      apply andb_prop in Hasset as [_ Htruthy]. cbn [truthy_opt] in *.
      rewrite Htruthy. reflexivity.
    + split; [exact Hfirst|reflexivity].
Qed.

End UpdateFlow.

(** X28. When a download completes, the download flag is cleared, and the
    package is handed to the host's installer exactly when the download
    raised no error, left a file at a non-empty path, and the host can
    install add-ons from a file; in every case the user gets a message. *)
Theorem install_only_after_download (downloadedPath errorMessage : option string)
    (isfile canInstall : bool) (self : Update.Updater) :
  let '(self', out) :=
    Update._onUpdateDownloadComplete downloadedPath errorMessage isfile canInstall self in
  Update._updateDownloadInProgress self' = false
  /\ Update._updateCheckInProgress self' = Update._updateCheckInProgress self
  /\ (forall path,
        In (Update.HandleRemoteAddonInstall path) out
        <-> Update.truthy_opt errorMessage = false
            /\ downloadedPath = Some path /\ path <> EmptyString
            /\ isfile = true /\ canInstall = true)
  /\ (exists text rest, out = Update.Message text :: rest).
Proof.
  unfold Update._onUpdateDownloadComplete. cbv zeta.
  destruct (Update.truthy_opt errorMessage).
  { split; [reflexivity|]. split; [reflexivity|].
    split; [|do 2 eexists; reflexivity].
    intros path. split; [intros [[=]|[]]|intros (Hf & _); discriminate]. }
  destruct (Update.truthy_opt downloadedPath) eqn:Hpath; cbn [negb orb].
  2:{ split; [reflexivity|]. split; [reflexivity|].
      split; [|do 2 eexists; reflexivity].
      intros path. split; [intros [[=]|[]]|].
      intros (_ & -> & Hne & _). cbn in Hpath.
      destruct path; [congruence|discriminate]. }
  destruct isfile; cbn [negb].
  2:{ split; [reflexivity|]. split; [reflexivity|].
      split; [|do 2 eexists; reflexivity].
      intros path. split; [intros [[=]|[]]|intros (_ & _ & _ & Hf & _); discriminate]. }
  apply truthy_opt_true in Hpath as (found & -> & Hfound).
  destruct canInstall.
  - split; [reflexivity|]. split; [reflexivity|].
    split; [|do 2 eexists; reflexivity].
    intros path. split.
    + intros [[=]|[[= <-]|[]]]. repeat split; auto.
    + intros (_ & [= ->] & _). right. left. reflexivity.
  - split; [reflexivity|]. split; [reflexivity|].
    split; [|do 2 eexists; reflexivity].
    intros path. split; [intros [[=]|[[=]|[]]]|].
    intros (_ & _ & _ & _ & Hf). discriminate.
Qed.

(** * The further statements at sample values *)

Lemma isVersionNewer_from_unknown_witness :
  ("0" = "0" \/ digit_fields "0" = [])
  /\ _isVersionNewer "1.0" "0" = false.
Proof.
  assert (Hcur : "0" = "0" \/ digit_fields "0" = []) by (left; reflexivity).
  split; [exact Hcur|].
  exact (proj2 (isVersionNewer_from_unknown "0" "1.0" Hcur)).
Defined.

Lemma review_round_trip_witness :
  cursor_in_range (at_pos 1 sample_plugin)
  /\ (script_prevString sample_conf;; script_nextString sample_conf)
       (at_pos 1 sample_plugin)
     = Some (tt, at_pos 1 sample_plugin, [Speak [Str "one"]; Speak [Str "two"]]).
Proof.
  assert (Hcur : cursor_in_range (at_pos 1 sample_plugin)).
  { split; [vm_compute; discriminate|]. left. vm_compute. reflexivity. }
  split; [exact Hcur|].
  destruct (review_round_trip sample_conf (at_pos 1 sample_plugin) Hcur) as [Hback _].
  destruct Hback as (older & current & Holder & Hcurrent & Hrun);
    [vm_compute; reflexivity|].
  injection Holder as <-. injection Hcurrent as <-. exact Hrun.
Defined.

Lemma reachable_state_is_safe_witness :
  host_run "  " sample_conf sample_copyConf sample_session sample_world
  = Some busy_world
  /\ reachable "  " sample_conf sample_copyConf busy_world
  /\ (length (Deque.items (_history (self busy_world)))
      <= maxHistoryLength sample_conf)%nat
  /\ cursor_in_range (self busy_world)
  /\ (exists w' out,
        perform "  " sample_conf sample_copyConf (GestureCopyLast true) busy_world
        = Some (w', out))
  /\ (exists w' out,
        perform "  " sample_conf sample_copyConf GesturePrevString busy_world
        = Some (w', out)).
Proof.
  assert (Hrun : host_run "  " sample_conf sample_copyConf sample_session sample_world
                 = Some busy_world) by reflexivity.
  assert (Hw : reachable "  " sample_conf sample_copyConf busy_world)
    by exact (host_run_reachable _ _ _ _ _ _ (reachable_init _ _ _) Hrun).
  split; [exact Hrun|]. split; [exact Hw|].
  destruct (reachable_state_is_safe "  " sample_conf sample_copyConf busy_world Hw)
    as (Hlen & Hcur & Hnext).
  split; [exact Hlen|]. split; [exact Hcur|].
  split; [exact (Hnext (GestureCopyLast true))|exact (Hnext GesturePrevString)].
Defined.

Lemma empty_history_is_announced_witness :
  Deque.items (_history (__init__ sample_conf)) = []
  /\ script_copyLast "  " sample_copyConf true (__init__ sample_conf)
     = Some (tt, __init__ sample_conf, [Speak [Str "No history items."]]).
Proof.
  split; [reflexivity|].
  destruct (empty_history_is_announced "  " sample_conf sample_copyConf
              (__init__ sample_conf) eq_refl) as (_ & _ & Hcopy).
  apply Hcopy.
Defined.

Lemma start_then_stop_witness :
  reachable "  " sample_conf sample_copyConf sample_world
  /\ _recording (self sample_world) = false
  /\ script_stopRecording (self sample_world)
     = Some (tt, self sample_world, [Speak [Str "Not currently recording speech"]]).
Proof.
  assert (Hw : reachable "  " sample_conf sample_copyConf sample_world) by apply reachable_init.
  split; [exact Hw|]. split; [reflexivity|].
  exact (proj2 (start_then_stop "  " sample_conf sample_copyConf sample_world Hw eq_refl)).
Defined.

Lemma recording_reverses_history_witness :
  reachable "  " sample_conf sample_copyConf sample_world
  /\ _recording (self sample_world) = false
  /\ (length [[Str "one"]; [Str "two"]] <= maxHistoryLength sample_conf)%nat
  /\ exists self',
       (script_startRecording;; push_all "  " [[Str "one"]; [Str "two"]])
         (self sample_world)
       = Some (tt, self', [Speak [Str "Started recording speech"]])
       /\ _recorded self'
          = rev (map (getSequenceText "  ")
                     (take 2 (Deque.items (_history self')))).
Proof.
  assert (Hw : reachable "  " sample_conf sample_copyConf sample_world) by apply reachable_init.
  assert (Hfit : (length [[Str "one"]; [Str "two"]] <= maxHistoryLength sample_conf)%nat)
    by (vm_compute; lia).
  split; [exact Hw|]. split; [reflexivity|]. split; [exact Hfit|].
  exact (recording_reverses_history "  " sample_conf sample_copyConf sample_world
           [[Str "one"]; [Str "two"]] Hw eq_refl Hfit).
Defined.

Lemma spoken_sequence_enters_history_witness :
  let sequence := [Str (String "160" "hello"); FocusLossCancellableSpeechCommand] in
  reachable "  " sample_conf sample_copyConf idle_world
  /\ eventQueue idle_world = []
  /\ whitespace_only (getSequenceText "  " sequence) = false
  /\ (MIN_HISTORY_ENTRIES <= maxHistoryLength sample_conf)%nat
  /\ exists w1 w2,
       perform "  " sample_conf sample_copyConf (HostSpeaks sequence) idle_world
       = Some (w1, [Speak sequence; QueueFunction sequence])
       /\ perform "  " sample_conf sample_copyConf HostRunsQueued w1 = Some (w2, [])
       /\ Deque.getitem (_history (self w2)) 0 = Some [Str (String "160" "hello")].
Proof.
  cbv zeta.
  assert (Hw : reachable "  " sample_conf sample_copyConf idle_world).
  { apply (host_run_reachable _ _ _ (sample_session ++ sample_session_end)
             sample_world idle_world (reachable_init _ _ _)).
    reflexivity. }
  assert (Hcap : (MIN_HISTORY_ENTRIES <= maxHistoryLength sample_conf)%nat)
    by (vm_compute; lia).
  split; [exact Hw|]. split; [reflexivity|]. split; [reflexivity|].
  split; [exact Hcap|].
  destruct (spoken_sequence_enters_history "  " sample_conf sample_copyConf idle_world
              [Str (String "160" "hello"); FocusLossCancellableSpeechCommand]
              Hw eq_refl eq_refl Hcap)
    as (w1 & w2 & Hspeak & _ & _ & Hqueued & _ & Hentry & _).
  exists w1, w2. split; [exact Hspeak|]. split; [exact Hqueued|exact Hentry].
Defined.

Lemma copyLast_trims_chosen_ends_witness :
  Deque.nonempty (_history padded_plugin) = true
  /\ cursor_in_range padded_plugin
  /\ exists pre post,
       script_copyLast "  " sample_copyConf false padded_plugin
       = Some (tt, padded_plugin, [CopyToClip "hello "])
       /\ String "160" " hello " = pre +:+ "hello " +:+ post
       /\ whitespace_only pre = true
       /\ post = EmptyString.
Proof.
  assert (Hcur : cursor_in_range padded_plugin).
  { split; [vm_compute; discriminate|]. left. vm_compute. reflexivity. }
  split; [reflexivity|]. split; [exact Hcur|].
  destruct (copyLast_trims_chosen_ends "  " sample_copyConf false padded_plugin
              eq_refl Hcur)
    as (entry & copiedText & pre & post & Hentry & Hrun & Hsplit & Hpre & _ & _ & Hpost & _).
  assert (Hcopied : copiedText = "hello ").
  { assert (Hdirect : script_copyLast "  " sample_copyConf false padded_plugin
                      = Some (tt, padded_plugin, [CopyToClip "hello "]))
      by reflexivity.
    rewrite Hrun in Hdirect. injection Hdirect as Heq. exact Heq. }
  assert (Hfound : entry = [Str (String "160" " hello ")]).
  { assert (Hdirect : Deque.getitem (_history padded_plugin) (history_pos padded_plugin)
                      = Some [Str (String "160" " hello ")])
      by reflexivity.
    rewrite Hentry in Hdirect. injection Hdirect as Heq. exact Heq. }
  rewrite Hcopied in Hrun, Hsplit. rewrite Hfound in Hsplit.
  exists pre, post. split; [exact Hrun|]. split; [exact Hsplit|].
  split; [exact Hpre|exact (Hpost eq_refl)].
Defined.

Lemma copyLast_after_push_witness :
  within_maxlen (_history sample_plugin)
  /\ (1 <= Deque.maxlen (_history sample_plugin))%nat
  /\ exists self',
       (append_to_history "  " [Str (String "133" (String "160" "four "))];;
        script_copyLast "  " sample_copyConf false) sample_plugin
       = Some (tt, self', [CopyToClip "four "]).
Proof.
  assert (Hlen : within_maxlen (_history sample_plugin))
    by (unfold within_maxlen; vm_compute; lia).
  assert (Hcap : (1 <= Deque.maxlen (_history sample_plugin))%nat)
    by (vm_compute; lia).
  split; [exact Hlen|]. split; [exact Hcap|].
  destruct (copyLast_after_push "  " sample_copyConf false sample_plugin
              [Str (String "133" (String "160" "four "))] Hlen Hcap)
    as (self' & Hrun & _).
  exists self'. exact Hrun.
Defined.

Lemma onSearch_again_is_ignored_witness :
  let d := Dialog.__init__ "  " accent_plugin in
  Py.lower (E_acute +:+ "CoLe") = Py.lower (e_acute +:+ "cole")
  /\ Dialog.searchHistory (Dialog.onSearch (e_acute +:+ "cole") d)
     = [E_acute +:+ "cole"; e_acute +:+ "COLE"]
  /\ Dialog.onSearch (E_acute +:+ "CoLe") (Dialog.onSearch (e_acute +:+ "cole") d)
     = Dialog.onSearch (e_acute +:+ "cole") d.
Proof.
  cbv zeta.
  assert (Hsame : Py.lower (E_acute +:+ "CoLe") = Py.lower (e_acute +:+ "cole"))
    by reflexivity.
  split; [exact Hsame|]. split; [reflexivity|].
  exact (onSearch_again_is_ignored (e_acute +:+ "cole") (E_acute +:+ "CoLe")
           (Dialog.__init__ "  " accent_plugin) Hsame).
Defined.

Lemma rows_show_first_100_witness :
  Dialog.searchHistory (Dialog.doSearch "" sample_dialog) !! 0%nat = Some "three"
  /\ exists row rest,
       Dialog.rows (Dialog.historyList (Dialog.doSearch "" sample_dialog)) !! 0%nat
       = Some row
       /\ "three" = row +:+ rest.
Proof.
  split; [reflexivity|].
  destruct (rows_show_first_100 "" sample_dialog 0 "three" eq_refl)
    as (row & rest & Hrow & Hsplit & _).
  exists row, rest. split; [exact Hrow|exact Hsplit].
Defined.

Lemma selected_text_in_row_order_witness :
  (forall i, i ∈ Selection.selection sample_selecting -> 0 <= i)
  /\ exists d', Selection.updateSelection sample_selecting = Some d'.
Proof.
  assert (Hpos : forall i, i ∈ Selection.selection sample_selecting -> 0 <= i).
  { intros i Hi. change (i ∈ ({[ 0 ]} : gset Z)) in Hi.
    apply elem_of_singleton in Hi. lia. }
  split; [exact Hpos|].
  destruct (selected_text_in_row_order sample_selecting Hpos) as (d' & Hrun & _).
  exists d'. exact Hrun.
Defined.

Lemma selection_order_is_irrelevant_witness :
  (forall k, k ∈ Selection.selection sample_selecting -> 0 <= k)
  /\ (Selection.onSelect 2 sample_selecting ≫= Selection.onSelect 1)
     = (Selection.onSelect 1 sample_selecting ≫= Selection.onSelect 2).
Proof.
  assert (Hpos : forall k, k ∈ Selection.selection sample_selecting -> 0 <= k).
  { intros i Hi. change (i ∈ ({[ 0 ]} : gset Z)) in Hi.
    apply elem_of_singleton in Hi. lia. }
  split; [exact Hpos|].
  assert (H2 : 0 <= 2) by lia. assert (H1 : 0 <= 1) by lia.
  exact (proj1 (selection_order_is_irrelevant sample_selecting 2 1 Hpos H2 H1)).
Defined.

Lemma update_single_flight_witness :
  Update.update_step (Update.RequestCheck false) Update.update_init
  = Some (checking_world, [Update.StartCheckThread false])
  /\ Update.update_reachable checking_world
  /\ Update.checkThreads checking_world = 1%nat
  /\ Update.update_step (Update.RequestCheck true) checking_world
     = Some (checking_world,
             [Update.Message
                "Enchanced Speech History update check is already in progress."]).
Proof.
  assert (Hstep : Update.update_step (Update.RequestCheck false) Update.update_init
                  = Some (checking_world, [Update.StartCheckThread false]))
    by reflexivity.
  assert (Hw : Update.update_reachable checking_world)
    by exact (Update.update_reachable_step _ _ _ _ Update.update_reachable_init Hstep).
  split; [exact Hstep|]. split; [exact Hw|]. split; [reflexivity|].
  destruct (update_single_flight checking_world Hw) as (_ & _ & _ & _ & Hagain).
  exact (Hagain true eq_refl).
Defined.

Lemma accepted_update_downloads_first_addon_witness :
  let self := {| Update._updateCheckInProgress := true;
                 Update._updateDownloadInProgress := false |} in
  let r := Update._checkForUpdatesWorker false "1.9"
             (inl ("v2.0", Some "https://example.org/addon")) in
  Update.latestReleaseInfo sample_release
  = Some ("v2.0", Some "https://example.org/addon")
  /\ _isVersionNewer "1.9" "v2.0" = true
  /\ Update._onUpdateCheckComplete r false self
     = ({| Update._updateCheckInProgress := false;
           Update._updateDownloadInProgress := false |},
        [Update.MessageBox (Update.update_prompt "v2.0" "1.9")
           "Enchanced Speech History update available"]).
Proof.
  cbv zeta.
  assert (Hinfo : Update.latestReleaseInfo sample_release
                  = Some ("v2.0", Some "https://example.org/addon"))
    by reflexivity.
  assert (Hnew : _isVersionNewer "1.9" "v2.0" = true) by reflexivity.
  split; [exact Hinfo|]. split; [exact Hnew|].
  exact (proj1 (accepted_update_downloads_first_addon sample_release false "1.9" "v2.0"
                  (Some "https://example.org/addon")
                  {| Update._updateCheckInProgress := true;
                     Update._updateDownloadInProgress := false |} Hinfo Hnew)).
Defined.
